(** * The per-file cache item of the VFS cache (vfs/vfscache/item.go)

    A shallow embedding of [Item] and its methods, and the properties of the
    item engine stated against it.  The item is a record, the machine
    around it (file system, clock, cache registry, downloader, remotes) is
    a [World], and every method is a state transformer over the pair. *)

From Stdlib Require Import ZArith Lia Bool List String.
From Stdlib.Strings Require Import Byte.
From stdpp Require Import base gmap strings list fin_maps.

Open Scope string_scope.
Open Scope Z_scope.

(** ** Go integers

    [int64] (and [int] on the 64-bit targets) wrap around. *)

Definition int64 (z : Z) : Z := (z + 2 ^ 63) mod 2 ^ 64 - 2 ^ 63.
Definition add64 (a b : Z) : Z := int64 (a + b).
Definition sub64 (a b : Z) : Z := int64 (a - b).
Definition in_int64 (z : Z) : Prop := - 2 ^ 63 <= z < 2 ^ 63.
Definition maxInt64 : Z := 0x7fffffffffffffff.

(** ** Errors

    [ErrNotExist] stands for the errors [os.IsNotExist] recognises,
    [ErrIO] for every other error of the operating system or of an
    external collaborator, [New] for [errors.New]/[errors.Errorf] and
    [Wrap] for [errors.Wrap]. *)

Inductive error : Type :=
| ErrNotExist
| ErrClosed
| ErrIO (msg : string)
| New (msg : string)
| Wrap (cause : error) (msg : string).

(** errors.Cause *)
Fixpoint Cause (e : error) : error :=
  match e with
  | Wrap c _ => Cause c
  | _ => e
  end.

(** os.IsNotExist: looks at the error itself, not through [errors.Wrap]. *)
Definition IsNotExist (err : option error) : bool :=
  match err with
  | Some ErrNotExist => true
  | _ => false
  end.

Definition CauseOpt (err : option error) : option error :=
  match err with
  | Some e => Some (Cause e)
  | None => None
  end.

(** ** lib/ranges *)

Module ranges.

(** Modelled from the spec: lib/ranges (Range, Ranges, Insert,
    Intersection, Present) is not among the sources.  A Range is the
    half-open interval [Pos, Pos+Size); a Ranges value is a normalised
    union kept as a sorted sequence; Insert unions and merges
    overlapping or adjacent entries; Intersection keeps the parts of
    every stored range that fall within the clip; Present holds iff the
    range is contained; zero-length ranges are no-ops and are always
    present. *)
Record Range : Type := { Pos : Z; Size : Z }.

Abbreviation Ranges := (list Range).

Definition End (r : Range) : Z := Pos r + Size r.

Definition IsEmpty (r : Range) : bool := Size r <=? 0.

(** byte [x] lies in [r] *)
Definition contains (r : Range) (x : Z) : bool :=
  (Pos r <=? x) && (x <? End r).

(** byte [x] lies in some stored range *)
Definition covers (rs : Ranges) (x : Z) : bool :=
  existsb (fun r => contains r x) rs.

(** the smallest range holding both [a] and [b] *)
Definition merge (a b : Range) : Range :=
  {| Pos := Z.min (Pos a) (Pos b);
     Size := Z.max (End a) (End b) - Z.min (Pos a) (Pos b) |}.

Fixpoint insert (r : Range) (rs : Ranges) : Ranges :=
  match rs with
  | [] => [r]
  | h :: t =>
      if End r <? Pos h then r :: h :: t
      else if End h <? Pos r then h :: insert r t
      else insert (merge r h) t
  end.

Definition Insert (rs : Ranges) (r : Range) : Ranges :=
  if IsEmpty r then rs else insert r rs.

(** the part of [r] within [clip] *)
Definition clipTo (clip r : Range) : Range :=
  {| Pos := Z.max (Pos clip) (Pos r);
     Size := Z.min (End clip) (End r) - Z.max (Pos clip) (Pos r) |}.

Definition Intersection (rs : Ranges) (clip : Range) : Ranges :=
  List.filter (fun r => negb (IsEmpty r)) (List.map (clipTo clip) rs).

Definition Present (rs : Ranges) (r : Range) : bool :=
  IsEmpty r
  || existsb (fun s => (Pos s <=? Pos r) && (End r <=? End s)) rs.

(** The representation invariant of the spec: every entry non-empty,
    ascending, non-overlapping and non-adjacent. *)
Fixpoint wf (rs : Ranges) : Prop :=
  match rs with
  | [] => True
  | r :: t =>
      0 < Size r
      /\ match t with [] => True | s :: _ => End r < Pos s end
      /\ wf t
  end.


(** [lo] lies strictly below the first stored range *)
Definition above (lo : Z) (rs : Ranges) : Prop :=
  match rs with [] => True | s :: _ => lo < Pos s end.

End ranges.

(** ** The collaborators of the item *)

Module fs.
(** fs.Object, as far as the item consumes it: Size() and ModTime(). *)
Record Object : Type := { Remote : string; Size : Z; ModTime : Z }.
End fs.

(** The cache the item is part of ([item.c]): the two path functions and
    the fingerprint function the item calls on it.  The registry behind
    [c.put] is mutable and lives in the [World]. *)
Record Cache : Type := {
  toOSPath : string -> string;
  toOSPathMeta : string -> string;
  objectFingerprint : fs.Object -> string
}.

(** Modelled from the spec: the downloader (downloader.go) is not among
    the sources.  The item holds at most one; it is constructed for a
    remote object, [start] begins fetching, [running] tells whether it
    fetches, [ensure] blocks until a range is reported present through
    the item's [_written], [close] stops it. *)
Record Downloader : Type := { dl_o : fs.Object; dl_running : bool }.

(** An open *os.File, named by the path it was opened on.  The handle
    stays usable as long as the file is at that path.  No operation on a
    handle reports not-exist (an fstat, ftruncate, pread or pwrite never
    does); once the file has been removed or renamed away the operations
    on the handle are refused with [ErrIO], where a POSIX descriptor
    would go on working on the unlinked file: the model is pessimistic
    there, and the properties below that speak of the file behind a
    handle suppose it is still at its path. *)
Definition os_File : Type := string.

(** the error of an operation on a handle whose file is no longer at the
    path it was opened on *)
Definition ErrBadHandle : error := ErrIO "file is no longer at the path of the handle".

(** Item: the fields of the Go struct (the mutex has no state of its own
    in a sequential run). *)
Record Item : Type := {
  c : Cache;
  name : string;
  opens : Z;
  downloader : option Downloader;
  o : option fs.Object;
  fd : option os_File;
  changed : bool;
  ATime : Z;
  Size : Z;
  Rs : ranges.Ranges;
  Fingerprint : string
}.

(** The persisted (exported) fields, as encoding/json sees the item. *)
Record Meta : Type := {
  mATime : Z;
  mSize : Z;
  mRs : ranges.Ranges;
  mFingerprint : string
}.

(** Field updates. *)
Definition set_name (v : string) (i : Item) : Item :=
  {| c := c i; name := v; opens := opens i; downloader := downloader i; o := o i; fd := fd i;
     changed := changed i; ATime := ATime i; Size := Size i; Rs := Rs i; Fingerprint := Fingerprint i |}.
Definition set_opens (v : Z) (i : Item) : Item :=
  {| c := c i; name := name i; opens := v; downloader := downloader i; o := o i; fd := fd i;
     changed := changed i; ATime := ATime i; Size := Size i; Rs := Rs i; Fingerprint := Fingerprint i |}.
Definition set_downloader (v : option Downloader) (i : Item) : Item :=
  {| c := c i; name := name i; opens := opens i; downloader := v; o := o i; fd := fd i;
     changed := changed i; ATime := ATime i; Size := Size i; Rs := Rs i; Fingerprint := Fingerprint i |}.
Definition set_o (v : option fs.Object) (i : Item) : Item :=
  {| c := c i; name := name i; opens := opens i; downloader := downloader i; o := v; fd := fd i;
     changed := changed i; ATime := ATime i; Size := Size i; Rs := Rs i; Fingerprint := Fingerprint i |}.
Definition set_fd (v : option os_File) (i : Item) : Item :=
  {| c := c i; name := name i; opens := opens i; downloader := downloader i; o := o i; fd := v;
     changed := changed i; ATime := ATime i; Size := Size i; Rs := Rs i; Fingerprint := Fingerprint i |}.
Definition set_changed (v : bool) (i : Item) : Item :=
  {| c := c i; name := name i; opens := opens i; downloader := downloader i; o := o i; fd := fd i;
     changed := v; ATime := ATime i; Size := Size i; Rs := Rs i; Fingerprint := Fingerprint i |}.
Definition set_ATime (v : Z) (i : Item) : Item :=
  {| c := c i; name := name i; opens := opens i; downloader := downloader i; o := o i; fd := fd i;
     changed := changed i; ATime := v; Size := Size i; Rs := Rs i; Fingerprint := Fingerprint i |}.
Definition set_Size (v : Z) (i : Item) : Item :=
  {| c := c i; name := name i; opens := opens i; downloader := downloader i; o := o i; fd := fd i;
     changed := changed i; ATime := ATime i; Size := v; Rs := Rs i; Fingerprint := Fingerprint i |}.
Definition set_Rs (v : ranges.Ranges) (i : Item) : Item :=
  {| c := c i; name := name i; opens := opens i; downloader := downloader i; o := o i; fd := fd i;
     changed := changed i; ATime := ATime i; Size := Size i; Rs := v; Fingerprint := Fingerprint i |}.
Definition set_Fingerprint (v : string) (i : Item) : Item :=
  {| c := c i; name := name i; opens := opens i; downloader := downloader i; o := o i; fd := fd i;
     changed := changed i; ATime := ATime i; Size := Size i; Rs := Rs i; Fingerprint := v |}.

(** ** The world outside the item *)

(** The external calls that can fail. *)
Inductive Op : Type :=
| OsStat | FdStat | OsOpen | OsCreate | OsRemove | OsChtimes | OsRename
| FileOpenFile | FileSetSparse | FdTruncate | FdClose | FdReadAt | FdWriteAt
| JsonEncode | CacheMkdir | FcacheNewObject | CopyObj
| DlNew | DlStart | DlEnsure | DlClose.

(** What the item asked of its collaborators, in order. *)
Inductive Event : Type :=
| EvMkdir (name : string)
| EvSetSparse (path : string)
| EvChtimes (path : string) (modTime : Z)
| EvNewDownloader (name : string) (o : fs.Object)
| EvDlStart (name : string) (offset : Z)
| EvDlEnsure (name : string) (r : ranges.Range)
| EvDlClose (name : string)
| EvCopyObj (name : string) (size : Z).

(** What the cache registry ([c.item]) holds under a name: this item, or
    another item with its count of opens. *)
Inductive RegEntry : Type :=
| RegSelf
| RegOther (opens : Z).

(** [files] maps a path to the bytes of the file there.  [fault] makes a
    call that would succeed fail with [ErrIO]: the item cannot tell which
    of its calls the system will refuse.  [json_Encode]/[json_Decode] are
    encoding/json on the persisted fields. *)
Record World : Type := {
  files : gmap string (list byte);
  fault : Op -> string -> option string;
  clock : Z;
  registry : gmap string RegEntry;
  json_Encode : Meta -> list byte;
  json_Decode : list byte -> option Meta;
  trace : list Event
}.

Definition set_files (v : gmap string (list byte)) (w : World) : World :=
  {| files := v; fault := fault w; clock := clock w; registry := registry w;
     json_Encode := json_Encode w; json_Decode := json_Decode w; trace := trace w |}.
Definition set_registry (v : gmap string RegEntry) (w : World) : World :=
  {| files := files w; fault := fault w; clock := clock w; registry := v;
     json_Encode := json_Encode w; json_Decode := json_Decode w; trace := trace w |}.
Definition emit (e : Event) (w : World) : World :=
  {| files := files w; fault := fault w; clock := clock w; registry := registry w;
     json_Encode := json_Encode w; json_Decode := json_Decode w; trace := trace w ++ [e] |}.

Definition failed (w : World) (op : Op) (key : string) : option error :=
  match fault w op key with
  | Some msg => Some (ErrIO msg)
  | None => None
  end.

(** ** The operating system, on the [World] *)

Definition lenZ (b : list byte) : Z := Z.of_nat (length b).

(** the bytes of a file cut or zero-extended to [n] bytes *)
Definition resize (n : Z) (b : list byte) : list byte :=
  take (Z.to_nat n) b ++ replicate (Z.to_nat n - length b)%nat x00.

(** the bytes of a file after [data] is written at [off] *)
Definition splice (off : Z) (data b : list byte) : list byte :=
  let b' := if lenZ b <? off + lenZ data then resize (off + lenZ data) b else b in
  take (Z.to_nat off) b' ++ data ++ drop (Z.to_nat (off + lenZ data)) b'.

(** os.Stat(path), reduced to fi.Size() *)
Definition os_Stat (w : World) (path : string) : Z + error :=
  match files w !! path with
  | None => inr ErrNotExist
  | Some b =>
      match failed w OsStat path with
      | Some e => inr e
      | None => inl (lenZ b)
      end
  end.

(** fd.Stat(), reduced to fi.Size() *)
Definition fd_Stat (w : World) (f : os_File) : Z + error :=
  match files w !! f with
  | None => inr ErrBadHandle
  | Some b =>
      match failed w FdStat f with
      | Some e => inr e
      | None => inl (lenZ b)
      end
  end.

(** os.Open(path) followed by reading the file *)
Definition os_Open (w : World) (path : string) : list byte + error :=
  match files w !! path with
  | None => inr ErrNotExist
  | Some b =>
      match failed w OsOpen path with
      | Some e => inr e
      | None => inl b
      end
  end.

(** os.Create(path): create or truncate *)
Definition os_Create (path : string) (w : World) : option error * World :=
  match failed w OsCreate path with
  | Some e => (Some e, w)
  | None => (None, set_files (<[path := []]> (files w)) w)
  end.

(** os.Remove(path) *)
Definition os_Remove (path : string) (w : World) : option error * World :=
  match files w !! path with
  | None => (Some ErrNotExist, w)
  | Some _ =>
      match failed w OsRemove path with
      | Some e => (Some e, w)
      | None => (None, set_files (delete path (files w)) w)
      end
  end.

(** file.OpenFile(path, flags, 0600); [create] is O_CREATE *)
Definition file_OpenFile (path : string) (create : bool) (w : World)
  : (os_File + error) * World :=
  match files w !! path with
  | Some _ =>
      match failed w FileOpenFile path with
      | Some e => (inr e, w)
      | None => (inl path, w)
      end
  | None =>
      if create then
        match failed w FileOpenFile path with
        | Some e => (inr e, w)
        | None => (inl path, set_files (<[path := []]> (files w)) w)
        end
      else (inr ErrNotExist, w)
  end.

(** file.SetSparse(fd) *)
Definition file_SetSparse (f : os_File) (w : World) : option error * World :=
  match failed w FileSetSparse f with
  | Some e => (Some e, w)
  | None => (None, emit (EvSetSparse f) w)
  end.

(** fd.Truncate(size) *)
Definition fd_Truncate (f : os_File) (size : Z) (w : World) : option error * World :=
  match files w !! f with
  | None => (Some ErrBadHandle, w)
  | Some b =>
      match failed w FdTruncate f with
      | Some e => (Some e, w)
      | None => (None, set_files (<[f := resize size b]> (files w)) w)
      end
  end.

(** fd.Close() *)
Definition fd_Close (w : World) (f : os_File) : option error :=
  failed w FdClose f.

(** fs.CheckClose(c, &err): close, and report the failure of the close
    when nothing failed before *)
Definition fs_CheckClose (w : World) (f : os_File) (err : option error) : option error :=
  match fd_Close w f with
  | Some cerr => match err with None => Some cerr | Some e => Some e end
  | None => err
  end.

(** fd.WriteAt(b, off) *)
Definition fd_WriteAt (f : os_File) (b : list byte) (off : Z) (w : World)
  : (Z * option error) * World :=
  match files w !! f with
  | None => ((0, Some ErrBadHandle), w)
  | Some old =>
      if off <? 0 then ((0, Some (ErrIO "negative offset")), w)
      else
        match failed w FdWriteAt f with
        | Some e => ((0, Some e), w)
        | None => ((lenZ b, None), set_files (<[f := splice off b old]> (files w)) w)
        end
  end.

(** fd.ReadAt(b, off) with len(b) = [len]: the bytes read, n and err *)
Definition fd_ReadAt (w : World) (f : os_File) (len off : Z)
  : list byte * Z * option error :=
  match files w !! f with
  | None => ([], 0, Some ErrBadHandle)
  | Some old =>
      if off <? 0 then ([], 0, Some (ErrIO "negative offset"))
      else
        match failed w FdReadAt f with
        | Some e => ([], 0, Some e)
        | None =>
            let got := take (Z.to_nat len) (drop (Z.to_nat off) old) in
            (got, lenZ got, if lenZ got <? len then Some (ErrIO "EOF") else None)
        end
  end.

(** os.Chtimes(path, modTime, modTime) *)
Definition os_Chtimes (path : string) (modTime : Z) (w : World) : option error * World :=
  match files w !! path with
  | None => (Some ErrNotExist, w)
  | Some _ =>
      match failed w OsChtimes path with
      | Some e => (Some e, w)
      | None => (None, emit (EvChtimes path modTime) w)
      end
  end.

(** Modelled from the spec: the package's [rename] helper is not among
    the sources.  It renames a file if it exists; absence is tolerated. *)
Definition rename_file (old new : string) (w : World) : option error * World :=
  match files w !! old with
  | None => (None, w)
  | Some b =>
      match failed w OsRename old with
      | Some e => (Some e, w)
      | None => (None, set_files (<[new := b]> (delete old (files w))) w)
      end
  end.

(** Modelled from the spec: [c.mkdir] is not among the sources.  It
    ensures the parent directory and returns the backing path. *)
Definition cache_mkdir (cc : Cache) (n : string) (w : World) : (string * option error) * World :=
  match failed w CacheMkdir n with
  | Some e => (("", Some e), w)
  | None => ((toOSPath cc n, None), emit (EvMkdir n) w)
  end.

(** Modelled from the spec: [c.put] is not among the sources.  It
    registers this item under the name and returns the entry it replaced
    when that was a different item. *)
Definition cache_put (n : string) (e : RegEntry) (w : World) : option RegEntry * World :=
  let old := match registry w !! n with
             | Some (RegOther k) => Some (RegOther k)
             | _ => None
             end in
  (old, set_registry (<[n := e]> (registry w)) w).

(** ** Methods as state transformers over the item and the world *)

Definition St : Type := Item * World.
Definition M (A : Type) : Type := St -> A * St.

Definition ret {A : Type} (a : A) : M A := fun s => (a, s).
Definition bind {A B : Type} (m : M A) (k : A -> M B) : M B :=
  fun s => let (a, s') := m s in k a s'.

Declare Scope go_scope.
Delimit Scope go_scope with go.
Notation "x <- m ;; k" := (bind m (fun x => k))
  (at level 100, m at next level, right associativity) : go_scope.
Notation "m ;;; k" := (bind m (fun _ => k))
  (at level 100, right associativity) : go_scope.
Open Scope go_scope.

(** the receiver *)
Definition item : M Item := fun s => (fst s, s).
Definition world : M World := fun s => (snd s, s).
(** an assignment to fields of the receiver *)
Definition update (f : Item -> Item) : M unit := fun s => (tt, (f (fst s), snd s)).
(** a call that changes the world *)
Definition sys {A : Type} (f : World -> A * World) : M A :=
  fun s => let (a, w) := f (snd s) in (a, (fst s, w)).
Definition time_Now : M Z := fun s => (clock (snd s), s).

Definition isNil {A : Type} (x : option A) : bool :=
  match x with None => true | Some _ => false end.

Definition meta_of (it : Item) : Meta :=
  {| mATime := ATime it; mSize := Size it; mRs := Rs it; mFingerprint := Fingerprint it |}.

Definition decoded (m : Meta) (it : Item) : Item :=
  set_ATime (mATime m) (set_Size (mSize m) (set_Rs (mRs m) (set_Fingerprint (mFingerprint m) it))).

(** clean the item after its cache file has been deleted *)
Definition clean : M unit :=
  update (set_Rs []) ;;;
  update (set_Fingerprint "") ;;;
  update (set_Size 0) ;;;
  now <- time_Now ;;
  update (set_ATime now).

(** load reads an item from the disk *)
Definition load : M (bool * option error) :=
  it <- item ;;
  w <- world ;;
  let osPathMeta := toOSPathMeta (c it) (name it) in
  match os_Open w osPathMeta with
  | inr err =>
      if IsNotExist (Some err) then ret (false, Some err)
      else ret (true, Some (Wrap err "vfs cache item: failed to read metadata"))
  | inl bytes =>
      match json_Decode w bytes with
      | None =>
          ret (true, fs_CheckClose w osPathMeta
                       (Some (Wrap (ErrIO "json: cannot decode") "vfs cache item: corrupt metadata")))
      | Some m =>
          update (decoded m) ;;;
          ret (true, fs_CheckClose w osPathMeta None)
      end
  end.

(** save writes an item to the disk *)
Definition _save : M (option error) :=
  it <- item ;;
  let osPathMeta := toOSPathMeta (c it) (name it) in
  err <- sys (os_Create osPathMeta) ;;
  match err with
  | Some e => ret (Some (Wrap e "vfs cache item: failed to write metadata"))
  | None =>
      w <- world ;;
      match failed w JsonEncode osPathMeta with
      | Some e =>
          ret (fs_CheckClose w osPathMeta
                 (Some (Wrap e "vfs cache item: failed to encode metadata")))
      | None =>
          sys (fun w => (tt, set_files (<[osPathMeta := json_Encode w (meta_of it)]> (files w)) w)) ;;;
          ret (fs_CheckClose w osPathMeta None)
      end
  end.

(** truncate the item to the given size, creating it if necessary *)
Definition truncate (size : Z) : M (option error) :=
  if size <? 0 then ret None
  else
    it <- item ;;
    match fd it with
    | Some f =>
        err <- sys (fd_Truncate f size) ;;
        match err with
        | Some e => ret (Some (Wrap e "vfs truncate: failed to truncate"))
        | None => ret None
        end
    | None =>
        let osPath := toOSPath (c it) (name it) in
        r <- sys (file_OpenFile osPath true) ;;
        match r with
        | inr e => ret (Some (Wrap e "vfs item truncate: failed to open cache file"))
        | inl f =>
            sys (file_SetSparse f) ;;;
            err <- sys (fd_Truncate f size) ;;
            w <- world ;;
            match err with
            | Some e =>
                ret (fs_CheckClose w f (Some (Wrap e "vfs truncate: failed to truncate")))
            | None => ret (fs_CheckClose w f None)
            end
        end
    end.

(** _getSize gets the current size of the item *)
Definition _getSize : M (Z * option error) :=
  it <- item ;;
  w <- world ;;
  let fi := match fd it with
            | Some f => fd_Stat w f
            | None => os_Stat w (toOSPath (c it) (name it))
            end in
  match fi with
  | inr err =>
      match IsNotExist (Some err), o it with
      | true, Some ob => ret (fs.Size ob, None)
      | _, _ => ret (0, Some err)
      end
  | inl size => ret (size, None)
  end.

(** GetSize gets the current size of the item *)
Definition GetSize : M (Z * option error) := _getSize.

(** Exists returns whether the backing file for the item exists or not *)
Definition Exists : M bool :=
  r <- GetSize ;;
  ret (isNil (snd r)).

(** remove the cached file *)
Definition _removeFile (reason : string) : M unit :=
  it <- item ;;
  sys (os_Remove (toOSPath (c it) (name it))) ;;;
  ret tt.

(** remove the metadata *)
Definition _removeMeta (reason : string) : M unit :=
  it <- item ;;
  sys (os_Remove (toOSPathMeta (c it) (name it))) ;;;
  ret tt.

(** remove the cached file and empty the metadata *)
Definition _remove (reason : string) : M unit :=
  clean ;;;
  _removeFile reason ;;;
  _removeMeta reason.


(** _written shows the range from offset, size is now present *)
Definition _written (offset size : Z) : M unit :=
  update (fun it =>
            set_Rs (ranges.Insert (Rs it)
                      {| ranges.Pos := offset; ranges.Size := add64 offset size |}) it) ;;;
  _save ;;;
  ret tt.

(** Truncate the item to the given size, creating it if necessary *)
Definition Truncate (size : Z) : M (option error) :=
  r <- GetSize ;;
  match (match snd r with
         | Some e =>
             if negb (IsNotExist (CauseOpt (snd r)))
             then inr (Wrap e "truncate failed to read size")
             else inl 0
         | None => inl (fst r)
         end) with
  | inr e => ret (Some e)
  | inl oldSize =>
      err <- truncate size ;;
      match err with
      | Some e => ret (Some e)
      | None =>
          update (set_Size size) ;;;
          (if size >? oldSize then
             _written oldSize size ;;;
             update (set_changed true)
           else if size <? oldSize then
             update (fun it =>
                       set_Rs (ranges.Intersection (Rs it)
                                 {| ranges.Pos := 0; ranges.Size := size |}) it) ;;;
             update (set_changed true)
           else
             update (fun it => set_changed (isNil (o it)) it)) ;;;
          ret None
      end
  end.

(** Truncate the item to the current size, creating if necessary *)
Definition truncateToCurrentSize : M (option error) :=
  r <- GetSize ;;
  match snd r with
  | Some e =>
      if negb (IsNotExist (CauseOpt (snd r)))
      then ret (Some (Wrap e "truncate to current size"))
      else if fst r <? 0 then ret None else Truncate (fst r)
  | None =>
      if fst r <? 0 then ret None else Truncate (fst r)
  end.

(** check the fingerprint of an object and update the item or delete
    the cached file accordingly *)
Definition checkObject (ob : option fs.Object) : M unit :=
  it <- item ;;
  match ob with
  | None =>
      if negb (String.eqb (Fingerprint it) "") then
        _remove "stale (remote deleted)"
      else ret tt
  | Some obj =>
      let remoteFingerprint := objectFingerprint (c it) obj in
      (if negb (String.eqb (Fingerprint it) "") then
         if negb (String.eqb remoteFingerprint (Fingerprint it)) then
           _remove "stale (remote is different)"
         else ret tt
       else
         update (set_Fingerprint remoteFingerprint)) ;;;
      update (set_Size (fs.Size obj))
  end ;;;
  update (set_o ob).

(** Modelled from the spec: the downloader's constructor and methods
    (downloader.go); see [Downloader]. *)
Definition newDownloader (n : string) (obj : fs.Object) (w : World)
  : (option Downloader * option error) * World :=
  match failed w DlNew n with
  | Some e => ((None, Some e), w)
  | None =>
      ((Some {| dl_o := obj; dl_running := false |}, None), emit (EvNewDownloader n obj) w)
  end.

Definition downloader_running (d : Downloader) : bool := dl_running d.

Definition downloader_close (n : string) (d : Downloader) (w : World) : option error * World :=
  (failed w DlClose n, emit (EvDlClose n) w).

(** [item.downloader.start(offset)] *)
Definition downloader_start (offset : Z) : M (option error) :=
  it <- item ;;
  w <- world ;;
  match downloader it, failed w DlStart (name it) with
  | Some d, None =>
      update (set_downloader (Some {| dl_o := dl_o d; dl_running := true |})) ;;;
      sys (fun w => (None, emit (EvDlStart (name it) offset) w))
  | _, Some e => ret (Some e)
  | None, None => ret None
  end.

(** [item.downloader.ensure(r)]: waits until [r] has been reported
    present through [_written] *)
Definition downloader_ensure (r : ranges.Range) : M (option error) :=
  it <- item ;;
  sys (fun w => (tt, emit (EvDlEnsure (name it) r) w)) ;;;
  w <- world ;;
  match failed w DlEnsure (name it) with
  | Some e => ret (Some e)
  | None =>
      _written (ranges.Pos r) (ranges.Size r) ;;;
      ret None
  end.

(** create a downloader for the item *)
Definition _newDownloader : M (option error) :=
  it <- item ;;
  match o it with
  | None => ret (Some (New "vfs cache: internal error: tried to download nil object"))
  | Some obj =>
      match downloader it with
      | Some d =>
          sys (downloader_close (name it) d) ;;;
          update (set_downloader None)
      | None => ret tt
      end ;;;
      r <- sys (newDownloader (name it) obj) ;;
      update (set_downloader (fst r)) ;;;
      ret (snd r)
  end.

(** _present returns true if the whole file has been downloaded *)
Definition _present : M bool :=
  it <- item ;;
  match downloader it with
  | Some d =>
      if downloader_running d then ret false
      else ret (ranges.Present (Rs it) {| ranges.Pos := 0; ranges.Size := Size it |})
  | None => ret (ranges.Present (Rs it) {| ranges.Pos := 0; ranges.Size := Size it |})
  end.

Definition Present : M bool := _present.

(** the first statement of _ensure: the size asked for, cut at the end
    of the item *)
Definition _ensure_size (it : Item) (offset size : Z) : Z :=
  if add64 offset size >? Size it then sub64 (Size it) offset else size.

(** ensure the range from offset, size is present *)
Definition _ensure (offset size : Z) : M (option error) :=
  it <- item ;;
  let size := _ensure_size it offset size in
  let r := {| ranges.Pos := offset; ranges.Size := size |} in
  let present := ranges.Present (Rs it) r in
  if present then ret None
  else
    err <- _newDownloader ;;
    match err with
    | Some e => ret (Some (Wrap e "Ensure: failed to start downloader"))
    | None =>
        it <- item ;;
        match downloader it with
        | None => ret (Some (New "internal error: downloader is nil"))
        | Some d =>
            if negb (downloader_running d) then
              err <- downloader_start offset ;;
              match err with
              | Some e => ret (Some (Wrap e "Ensure: failed to run downloader"))
              | None => downloader_ensure r
              end
            else downloader_ensure r
        end
    end.

(** Modelled from the spec: [c.fcache.NewObject] and [copyObj] are not
    among the sources.  The first finds the backing file in the
    cache-backing namespace, the second copies it to the remote under the
    logical name and returns the new remote object. *)
Definition fcache_NewObject (cc : Cache) (n : string) (w : World) : list byte + error :=
  match files w !! toOSPath cc n with
  | None => inr (ErrIO "object not found")
  | Some b =>
      match failed w FcacheNewObject n with
      | Some e => inr e
      | None => inl b
      end
  end.

Definition copyObj (n : string) (cacheObj : list byte) (w : World)
  : (fs.Object + error) * World :=
  match failed w CopyObj n with
  | Some e => (inr e, w)
  | None =>
      (inl {| fs.Remote := n; fs.Size := lenZ cacheObj; fs.ModTime := clock w |},
       emit (EvCopyObj n (lenZ cacheObj)) w)
  end.

(** Store stores the local cache file to the remote object *)
Definition _store : M (option error) :=
  err <- _ensure 0 maxInt64 ;;
  match err with
  | Some e => ret (Some (Wrap e "vfs cache: failed to download missing parts of cache file"))
  | None =>
      it <- item ;;
      w <- world ;;
      match fcache_NewObject (c it) (name it) w with
      | inr e => ret (Some (Wrap e "vfs cache: failed to find cache file"))
      | inl cacheObj =>
          r <- sys (copyObj (name it) cacheObj) ;;
          match r with
          | inr e => ret (Some (Wrap e "vfs cache: failed to transfer file from cache to remote"))
          | inl obj =>
              update (set_o (Some obj)) ;;;
              ret None
          end
      end
  end.

(** setModTime of the cache file *)
Definition _setModTime (modTime : Z) : M unit :=
  it <- item ;;
  sys (os_Chtimes (toOSPath (c it) (name it)) modTime) ;;;
  ret tt.

(** update the fingerprint of the object if any *)
Definition _updateFingerprint : M unit :=
  it <- item ;;
  match o it with
  | Some obj => update (set_Fingerprint (objectFingerprint (c it) obj))
  | None => ret tt
  end.

(** setModTime of the cache file and in the Item *)
Definition setModTime (modTime : Z) : M unit :=
  _updateFingerprint ;;;
  _setModTime modTime.

(** Open the local file from the object passed in (which may be nil) *)
Definition Open (ob : option fs.Object) : M (option error) :=
  now <- time_Now ;;
  update (set_ATime now) ;;;
  update (fun it => set_opens (add64 (opens it) 1) it) ;;;
  it <- item ;;
  r <- sys (cache_mkdir (c it) (name it)) ;;
  let osPath := fst r in
  match snd r with
  | Some e => ret (Some (Wrap e "vfs cache item: open mkdir failed"))
  | None =>
      checkObject ob ;;;
      err <- truncateToCurrentSize ;;
      match err with
      | Some e => ret (Some (Wrap e "vfs cache item: open truncate failed"))
      | None =>
          it <- item ;;
          if negb (opens it =? 1) then ret None
          else if negb (isNil (fd it)) then
            ret (Some (New "vfs cache item: internal error: didn't Close file"))
          else
            r <- sys (file_OpenFile osPath false) ;;
            match r with
            | inr e => ret (Some (Wrap e "vfs cache item: open failed"))
            | inl f =>
                sys (file_SetSparse f) ;;;
                update (set_fd (Some f)) ;;;
                err <- _save ;;
                match err with
                | Some e => ret (Some e)
                | None =>
                    oldItem <- sys (cache_put (name it) RegSelf) ;;
                    match oldItem with
                    | Some (RegOther k) =>
                        if negb (k =? 0) then
                          sys (cache_put (name it) (RegOther k)) ;;;
                          ret (Some (New "internal error: item already open in the cache"))
                        else ret None
                    | _ => ret None
                    end
                end
            end
      end
  end.

(** StoreFn is called back with an object after it has been uploaded *)
Definition StoreFn : Type := option fs.Object -> World -> World.

(** Close, between taking the lock and the deferred function: the error
    to return and the local variable [downloader] *)
Definition Close_locked : M (option error * option Downloader) :=
  now <- time_Now ;;
  update (set_ATime now) ;;;
  update (fun it => set_opens (sub64 (opens it) 1) it) ;;;
  it <- item ;;
  if opens it <? 0 then ret (Some ErrClosed, None)
  else if opens it >? 0 then ret (None, None)
  else
    r <- _getSize ;;
    (if isNil (snd r) then update (set_Size (fst r)) else ret tt) ;;;
    err <- _save ;;
    match err with
    | Some e => ret (Some (Wrap e "close failed to save item"), None)
    | None =>
        it <- item ;;
        let downloader' := downloader it in
        update (set_downloader None) ;;;
        match fd it with
        | None =>
            ret (Some (New "vfs cache item: internal error: didn't Open file"), downloader')
        | Some f =>
            w <- world ;;
            let err := fd_Close w f in
            update (set_fd None) ;;;
            it <- item ;;
            present <- _present ;;
            (if negb (changed it) && present then
               match o it with
               | Some obj => _setModTime (fs.ModTime obj)
               | None => ret tt
               end
             else ret tt) ;;;
            if changed it then
              err <- _store ;;
              match err with
              | Some e => ret (Some e, downloader')
              | None =>
                  update (set_changed false) ;;;
                  ret (None, downloader')
              end
            else ret (err, downloader')
        end
    end.

(** Close the cache file *)
Definition Close (storeFn : option StoreFn) : M (option error) :=
  r <- Close_locked ;;
  err <- match snd r with
         | Some d =>
             it <- item ;;
             closeErr <- sys (downloader_close (name it) d) ;;
             ret (match closeErr, fst r with
                  | Some ce, None => Some ce
                  | _, e => e
                  end)
         | None => ret (fst r)
         end ;;
  match err, storeFn with
  | None, Some f =>
      it <- item ;;
      sys (fun w => (tt, f (o it) w))
  | _, _ => ret tt
  end ;;;
  ret err.

(** ReadAt bytes from the file at off; [len] is len(b) *)
Definition ReadAt (len off : Z) : M (list byte * Z * option error) :=
  it <- item ;;
  match fd it with
  | None =>
      ret ([], 0, Some (New "vfs cache item ReadAt: internal error: didn't Open file"))
  | Some _ =>
      err <- _ensure off len ;;
      match err with
      | Some e => ret ([], 0, Some e)
      | None =>
          it <- item ;;
          w <- world ;;
          match fd it with
          | Some f => ret (fd_ReadAt w f len off)
          | None => ret ([], 0, Some ErrClosed)
          end
      end
  end.

(** WriteAt bytes to the file at off *)
Definition WriteAt (b : list byte) (off : Z) : M (Z * option error) :=
  it <- item ;;
  match fd it with
  | None =>
      ret (0, Some (New "vfs cache item WriteAt: internal error: didn't Open file"))
  | Some f =>
      r <- sys (fd_WriteAt f b off) ;;
      _written off (fst r) ;;;
      (if fst r >? 0 then update (set_changed true) else ret tt) ;;;
      ret r
  end.


(** rename the item *)
Definition rename (name' newName : string) (newObj : option fs.Object) : M (option error) :=
  it <- item ;;
  let downloader' := downloader it in
  update (set_downloader None) ;;;
  update (set_name newName) ;;;
  update (set_o newObj) ;;;
  err <- (err <- sys (rename_file (toOSPath (c it) name') (toOSPath (c it) newName)) ;;
          match err with
          | Some e => ret (Some e)
          | None =>
              sys (rename_file (toOSPathMeta (c it) name') (toOSPathMeta (c it) newName))
          end) ;;
  match downloader' with
  | Some d => sys (downloader_close (name it) d) ;;; ret tt
  | None => ret tt
  end ;;;
  ret err.

(** newItem returns an item for the cache *)
Definition newItem (cc : Cache) (n : string) (w : World) : St :=
  let item0 :=
    {| c := cc; name := n; opens := 0; downloader := None; o := None; fd := None;
       changed := false; ATime := clock w; Size := 0; Rs := []; Fingerprint := "" |} in
  let osPath := toOSPath cc n in
  let fi := os_Stat w osPath in
  snd ((match fi with
        | inr statErr =>
            if IsNotExist (Some statErr) then _removeMeta "cache file doesn't exist"
            else _remove "failed to stat cache file"
        | inl _ => ret tt
        end ;;;
        r <- load ;;
        (if negb (fst r) then _removeFile "metadata doesn't exist"
         else if negb (isNil (snd r)) then _remove "failed to load metadata"
         else ret tt) ;;;
        match fi with
        | inl size => update (set_Size size)
        | inr _ => ret tt
        end) (item0, w)).

(** ** Concrete caches, worlds and items for the scenarios *)

Module Scenario.

Definition cache : Cache :=
  {| toOSPath := fun n => "vfs/" ++ n;
     toOSPathMeta := fun n => "vfsMeta/" ++ n;
     objectFingerprint := fun ob => if fs.ModTime ob =? 2 then "F2" else "F1" |}.

(** "{}" decodes to the zero metadata, anything else is malformed *)
Definition decode (b : list byte) : option Meta :=
  match b with
  | [x7b; x7d] => Some {| mATime := 0; mSize := 0; mRs := []; mFingerprint := "" |}
  | _ => None
  end.

Definition world_of (fsys : gmap string (list byte)) : World :=
  {| files := fsys; fault := fun _ _ => None; clock := 100; registry := ∅;
     json_Encode := fun _ => [x7b; x7d]; json_Decode := decode; trace := [] |}.

Definition zeros (n : nat) : list byte := replicate n x00.

Definition item_of (opens' : Z) (o' : option fs.Object) (fd' : option os_File)
    (size : Z) (rs : ranges.Ranges) (fp : string) : Item :=
  {| c := cache; name := "a.txt"; opens := opens'; downloader := None; o := o'; fd := fd';
     changed := false; ATime := 0; Size := size; Rs := rs; Fingerprint := fp |}.

Definition whole (n : Z) : ranges.Ranges := [{| ranges.Pos := 0; ranges.Size := n |}].

(** an open item of [n] bytes, all present, created locally *)
Definition opened (n : nat) : St :=
  (item_of 1 None (Some "vfs/a.txt") (Z.of_nat n) (if n is O then [] else whole (Z.of_nat n)) "",
   world_of {[ "vfs/a.txt" := zeros n ]}).

Definition remote2 : fs.Object := {| fs.Remote := "a.txt"; fs.Size := 7; fs.ModTime := 2 |}.

(** S3: metadata with fingerprint F1 and the backing file present *)
Definition stale : St :=
  (item_of 0 None None 4 (whole 4) "F1",
   world_of {[ "vfs/a.txt" := zeros 4; "vfsMeta/a.txt" := [x7b; x7d] ]}).

(** an open, dirty item with a remote object and nothing present yet *)
Definition dirty_partial : St :=
  ({| c := cache; name := "a.txt"; opens := 1; downloader := None;
      o := Some remote2; fd := Some "vfs/a.txt"; changed := true; ATime := 0;
      Size := 7; Rs := []; Fingerprint := "F2" |},
   world_of {[ "vfs/a.txt" := zeros 7 ]}).

(** a world in which the calls selected by [bad] are refused *)
Definition world_failing (bad : Op -> bool) (fsys : gmap string (list byte)) : World :=
  {| files := fsys; fault := fun op _ => if bad op then Some "EIO" else None; clock := 100;
     registry := ∅; json_Encode := fun _ => [x7b; x7d]; json_Decode := decode; trace := [] |}.

(** S6: the backing file present and malformed metadata *)
Definition corrupt : World :=
  world_of {[ "vfs/a.txt" := zeros 3; "vfsMeta/a.txt" := [x7b] ]}.

(** A codec that keeps what it encodes, in place of encoding/json: the
    access time, the size and the number of ranges as 8 little-endian
    bytes each, then the position and size of each range, then the bytes
    of the fingerprint. *)
Fixpoint put (n : nat) (z : Z) : list byte :=
  match n with
  | O => []
  | S n' =>
      match Byte.of_N (Z.to_N (z mod 256)) with
      | Some b => b
      | None => x00
      end :: put n' (z / 256)
  end.

Definition putZ (z : Z) : list byte := put 8 (z mod 2 ^ 64).

Fixpoint get (bs : list byte) : Z :=
  match bs with
  | [] => 0
  | b :: rest => Z.of_N (Byte.to_N b) + 256 * get rest
  end.

Definition getZ (bs : list byte) : option (Z * list byte) :=
  if (length (take 8 bs) =? 8)%nat then Some (int64 (get (take 8 bs)), drop 8 bs)
  else None.

Definition encode (m : Meta) : list byte :=
  (putZ (mATime m) ++ putZ (mSize m) ++ putZ (Z.of_nat (length (mRs m)))
   ++ flat_map (fun r => putZ (ranges.Pos r) ++ putZ (ranges.Size r)) (mRs m)
   ++ list_byte_of_string (mFingerprint m))%list.

Fixpoint getRs (n : nat) (bs : list byte) : option (ranges.Ranges * list byte) :=
  match n with
  | O => Some ([], bs)
  | S n' =>
      match getZ bs with
      | None => None
      | Some (pos, bs1) =>
          match getZ bs1 with
          | None => None
          | Some (size, bs2) =>
              match getRs n' bs2 with
              | None => None
              | Some (rs, bs3) => Some ({| ranges.Pos := pos; ranges.Size := size |} :: rs, bs3)
              end
          end
      end
  end.

Definition decode_meta (bs : list byte) : option Meta :=
  match getZ bs with
  | None => None
  | Some (atime, bs1) =>
      match getZ bs1 with
      | None => None
      | Some (size, bs2) =>
          match getZ bs2 with
          | None => None
          | Some (n, bs3) =>
              if n <? 0 then None
              else
                match getRs (Z.to_nat n) bs3 with
                | None => None
                | Some (rs, bs4) =>
                    Some {| mATime := atime; mSize := size; mRs := rs;
                            mFingerprint := string_of_list_byte bs4 |}
                end
          end
      end
  end.

(** a world whose metadata files are written and read with that codec *)
Definition world_codec (fsys : gmap string (list byte)) : World :=
  {| files := fsys; fault := fun _ _ => None; clock := 100; registry := ∅;
     json_Encode := encode; json_Decode := decode_meta; trace := [] |}.

(** an open, dirty item of 7 bytes with two present ranges, and the fresh
    item of the same name that a restart would load it into *)
Definition saved : St :=
  ({| c := cache; name := "a.txt"; opens := 1; downloader := None;
      o := None; fd := Some "vfs/a.txt"; changed := true; ATime := 5;
      Size := 7;
      Rs := [{| ranges.Pos := 0; ranges.Size := 3 |}; {| ranges.Pos := 5; ranges.Size := 2 |}];
      Fingerprint := "F2" |},
   world_codec {[ "vfs/a.txt" := zeros 7 ]}).

Definition fresh : Item := item_of 0 None None 0 [] "".

End Scenario.

(** ** The vocabulary of the properties *)



(** [it'] has the count of opens and the backing-file handle of [it] *)
Definition same_handle (it it' : Item) : Prop :=
  opens it' = opens it /\ fd it' = fd it.

(** the whole item, at the size Close refreshes from the backing file, is
    present: the range the upload's _ensure(0, maxInt64) asks for *)
Definition present_at_close (st : St) : bool :=
  let r := fst (_getSize st) in
  let size := if isNil (snd r) then fst r else Size (fst st) in
  ranges.Present (Rs (fst st))
    {| ranges.Pos := 0;
       ranges.Size := _ensure_size (set_Size size (fst st)) 0 maxInt64 |}.

(** the two outcomes of a Close without error, [it'] being the item
    afterwards: other opens remain, or the item is closed *)
Definition closed_or_still_open (st : St) (it' : Item) : Prop :=
  (0 < opens it' /\ fd it' = fd (fst st) /\ downloader it' = downloader (fst st))
  \/ (opens it' = 0 /\ fd it' = None
      /\ (changed (fst st) = false \/ present_at_close st = true -> downloader it' = None)).

(** the path of the file that _getSize stats and truncate resizes: the
    open handle's when there is one, the backing path otherwise *)
Definition backing_path (it : Item) : string :=
  match fd it with
  | Some f => f
  | None => toOSPath (c it) (name it)
  end.

(** [it'] is the item of the same cache, name and handle as [it] *)
Definition same_file (it it' : Item) : Prop :=
  c it' = c it /\ name it' = name it /\ fd it' = fd it.


(** the size Truncate reads before resizing: GetSize, or 0 when the
    backing file does not exist *)
Definition current_size (st : St) : Z :=
  match snd (fst (GetSize st)) with
  | Some _ => 0
  | None => fst (fst (GetSize st))
  end.

(** ** Facts about the range set *)

Section RangeFacts.
Import ranges.

Lemma contains_iff r x : contains r x = true <-> Pos r <= x < Pos r + Size r.
Proof. unfold contains, End. rewrite andb_true_iff, Z.leb_le, Z.ltb_lt. tauto. Qed.

Lemma contains_merge a b x :
  0 < Size a -> Pos b <= End a -> Pos a <= End b ->
  contains (merge a b) x = contains a x || contains b x.
Proof.
  intros Ha H1 H2. apply eq_true_iff_eq.
  rewrite orb_true_iff, !contains_iff. unfold merge, End in *. simpl. lia.
Qed.

Lemma insert_covers rs : forall r x,
  0 < Size r -> covers (insert r rs) x = contains r x || covers rs x.
Proof.
  induction rs as [|h t IH]; intros r x Hr; simpl.
  - reflexivity.
  - destruct (End r <? Pos h) eqn:E1; [reflexivity|].
    destruct (End h <? Pos r) eqn:E2; simpl.
    + rewrite IH by assumption.
      destruct (contains h x), (contains r x); reflexivity.
    + apply Z.ltb_ge in E1, E2.
      rewrite IH by (unfold merge, End in *; simpl; lia).
      rewrite contains_merge by assumption.
      rewrite orb_assoc. reflexivity.
Qed.

Lemma Insert_covers rs r x :
  covers (Insert rs r) x = contains r x || covers rs x.
Proof.
  unfold Insert, IsEmpty. destruct (Size r <=? 0) eqn:E.
  - apply Z.leb_le in E.
    replace (contains r x) with false; [reflexivity|].
    symmetry. apply not_true_is_false. rewrite contains_iff. lia.
  - apply Z.leb_gt in E. apply insert_covers. exact E.
Qed.

Lemma covers_app a b x : covers (a ++ b) x = covers a x || covers b x.
Proof. unfold covers. apply existsb_app. Qed.

Lemma contains_clipTo clip r x :
  contains (clipTo clip r) x = contains r x && contains clip x.
Proof.
  apply eq_true_iff_eq. rewrite andb_true_iff, !contains_iff.
  unfold clipTo, End. simpl. lia.
Qed.

Lemma Intersection_covers rs clip x :
  covers (Intersection rs clip) x = covers rs x && contains clip x.
Proof.
  unfold Intersection.
  induction rs as [|h t IH]; simpl; [reflexivity|].
  destruct (IsEmpty (clipTo clip h)) eqn:E; simpl.
  - rewrite IH.
    assert (Hc : contains (clipTo clip h) x = false).
    { apply not_true_is_false. rewrite contains_iff.
      unfold IsEmpty in E. apply Z.leb_le in E. lia. }
    rewrite contains_clipTo in Hc.
    destruct (contains h x), (contains clip x), (covers t x);
      simpl in *; congruence.
  - rewrite IH, contains_clipTo.
    destruct (contains h x), (contains clip x), (covers t x); reflexivity.
Qed.



Lemma wf_cons r rs : wf (r :: rs) <-> 0 < Size r /\ above (End r) rs /\ wf rs.
Proof. destruct rs; simpl; tauto. Qed.

Lemma above_weaken lo lo' rs : lo' <= lo -> above lo rs -> above lo' rs.
Proof. destruct rs; simpl; [tauto|lia]. Qed.

Lemma wf_tail_above h t lo : wf (h :: t) -> lo < Pos h -> above lo t.
Proof.
  rewrite wf_cons. intros (Hh & Ha & _) Hlo.
  apply above_weaken with (lo := End h); [unfold End; lia|exact Ha].
Qed.

Lemma insert_above rs : forall r lo,
  wf rs -> 0 < Size r -> above lo rs -> lo < Pos r -> above lo (insert r rs).
Proof.
  induction rs as [|h t IH]; intros r lo Hwf Hr Hab Hlo; simpl.
  - exact Hlo.
  - destruct (End r <? Pos h) eqn:E1; [exact Hlo|].
    destruct (End h <? Pos r) eqn:E2; [exact Hab|].
    apply Z.ltb_ge in E1, E2. simpl in Hab.
    pose proof (proj1 (wf_cons h t) Hwf) as (Hh & Hat & Hwt).
    apply IH.
    + exact Hwt.
    + unfold merge, End in *. simpl. lia.
    + apply wf_tail_above with (h := h); assumption.
    + unfold merge. simpl. lia.
Qed.

Lemma insert_wf rs : forall r, wf rs -> 0 < Size r -> wf (insert r rs).
Proof.
  induction rs as [|h t IH]; intros r Hwf Hr.
  - simpl. auto.
  - pose proof (proj1 (wf_cons h t) Hwf) as (Hh & Hat & Hwt).
    cbn [insert].
    destruct (End r <? Pos h) eqn:E1.
    + apply Z.ltb_lt in E1. apply wf_cons. split; [exact Hr|split; [exact E1|exact Hwf]].
    + destruct (End h <? Pos r) eqn:E2.
      * apply Z.ltb_lt in E2. apply wf_cons. split; [exact Hh|split; [|apply IH; assumption]].
        apply insert_above; assumption.
      * apply Z.ltb_ge in E1, E2. apply IH; [exact Hwt|].
        unfold merge, End in *. simpl. lia.
Qed.

(** Insert keeps the set normalised. *)
Lemma Insert_wf rs r : wf rs -> wf (Insert rs r).
Proof.
  intros Hwf. unfold Insert, IsEmpty. destruct (Size r <=? 0) eqn:E; [exact Hwf|].
  apply Z.leb_gt in E. apply insert_wf; assumption.
Qed.

Lemma wf_tail_after h t s : wf (h :: t) -> In s t -> End h < Pos s.
Proof.
  revert h. induction t as [|a t IH]; intros h Hwf Hin; [destruct Hin|].
  pose proof (proj1 (wf_cons h (a :: t)) Hwf) as (Hh & Hat & Hwt).
  simpl in Hat. destruct Hin as [<-|Hin]; [exact Hat|].
  pose proof (proj1 (wf_cons a t) Hwt) as (Ha & _ & _).
  specialize (IH a Hwt Hin). unfold End in *. lia.
Qed.

Lemma wf_In_pos rs s : wf rs -> In s rs -> 0 < Size s.
Proof.
  induction rs as [|h t IH]; intros Hwf Hin; [destruct Hin|].
  pose proof (proj1 (wf_cons h t) Hwf) as (Hh & _ & Hwt).
  destruct Hin as [<-|Hin]; auto.
Qed.

Lemma wf_separated rs s s' :
  wf rs -> In s rs -> In s' rs -> s = s' \/ End s < Pos s' \/ End s' < Pos s.
Proof.
  induction rs as [|h t IH]; intros Hwf Hs Hs'; [destruct Hs|].
  pose proof (proj1 (wf_cons h t) Hwf) as (Hh & _ & Hwt).
  destruct Hs as [<-|Hs], Hs' as [<-|Hs'].
  - left. reflexivity.
  - right. left. eapply wf_tail_after; eassumption.
  - right. right. eapply wf_tail_after; eassumption.
  - apply IH; assumption.
Qed.

Lemma covers_In rs x : covers rs x = true <-> exists s, In s rs /\ contains s x = true.
Proof. unfold covers. apply existsb_exists. Qed.

(** On a normalised set, Present is containment: every byte of the range
    lies in a stored range. *)
Lemma Present_spec rs r :
  wf rs ->
  (Present rs r = true <-> forall x, contains r x = true -> covers rs x = true).
Proof.
  intros Hwf. unfold Present, IsEmpty. rewrite orb_true_iff, Z.leb_le. split.
  - intros [He|Hex] x Hx.
    + apply contains_iff in Hx. lia.
    + apply existsb_exists in Hex as (s & Hin & Hs).
      apply andb_true_iff in Hs as [H1 H2]. apply Z.leb_le in H1, H2.
      apply covers_In. exists s. split; [exact Hin|].
      apply contains_iff in Hx. apply contains_iff. unfold End in *. lia.
  - intros Hall. destruct (Z_le_gt_dec (Size r) 0) as [He|Hne]; [left; exact He|right].
    assert (H0 : contains r (Pos r) = true) by (apply contains_iff; lia).
    apply Hall, covers_In in H0 as (s & Hin & Hs). apply contains_iff in Hs.
    apply existsb_exists. exists s. split; [exact Hin|].
    apply andb_true_iff. rewrite !Z.leb_le. split; [lia|].
    destruct (Z_le_gt_dec (End r) (End s)) as [Hle|Hgt]; [exact Hle|exfalso].
    assert (H1 : contains r (End s) = true) by (apply contains_iff; unfold End in *; lia).
    apply Hall, covers_In in H1 as (s' & Hin' & Hs'). apply contains_iff in Hs'.
    pose proof (wf_In_pos _ _ Hwf Hin) as Hp.
    destruct (wf_separated rs s s' Hwf Hin Hin') as [->|[H|H]];
      unfold End in *; lia.
Qed.

Lemma above_of_all lo rs : (forall s, In s rs -> lo < Pos s) -> above lo rs.
Proof. destruct rs as [|h t]; simpl; [tauto|]. intros H. apply H. left. reflexivity. Qed.

Lemma Intersection_In rs clip s' :
  In s' (Intersection rs clip) ->
  exists s, In s rs /\ s' = clipTo clip s /\ 0 < Size s'.
Proof.
  unfold Intersection. rewrite filter_In, in_map_iff.
  intros [(s & <- & Hin) Hne]. exists s. repeat split; [exact Hin|].
  unfold IsEmpty in Hne. apply negb_true_iff, Z.leb_gt in Hne. exact Hne.
Qed.

(** Intersection keeps the set normalised. *)
Lemma Intersection_wf rs clip : wf rs -> wf (Intersection rs clip).
Proof.
  induction rs as [|h t IH]; intros Hwf; [exact I|].
  pose proof (proj1 (wf_cons h t) Hwf) as (Hh & _ & Hwt).
  change (Intersection (h :: t) clip)
    with (if negb (IsEmpty (clipTo clip h))
          then clipTo clip h :: Intersection t clip else Intersection t clip).
  destruct (negb (IsEmpty (clipTo clip h))) eqn:E; [|apply IH; exact Hwt].
  apply wf_cons. split; [|split; [|apply IH; exact Hwt]].
  - unfold IsEmpty in E. apply negb_true_iff, Z.leb_gt in E. exact E.
  - apply above_of_all. intros s' Hin.
    apply Intersection_In in Hin as (s & Hin & -> & _).
    pose proof (wf_tail_after h t s Hwf Hin) as Hsep.
    unfold clipTo, End in *. simpl. lia.
Qed.

End RangeFacts.

(** ** Running the methods *)

Ltac go := unfold bind, ret, item, world, update, sys, time_Now in *; simpl in *.

(** _save leaves the item as it is: only the metadata file changes. *)
Lemma _save_item st : fst (snd (_save st)) = fst st.
Proof.
  destruct st as [it w]. unfold _save. go.
  destruct (os_Create _ w) as [[e|] w']; simpl; [reflexivity|].
  destruct (failed w' JsonEncode _); reflexivity.
Qed.

Lemma _written_item offset size st :
  fst (snd (_written offset size st))
  = set_Rs (ranges.Insert (Rs (fst st))
              {| ranges.Pos := offset; ranges.Size := add64 offset size |}) (fst st).
Proof.
  destruct st as [it w]. unfold _written. go.
  pose proof (_save_item (set_Rs (ranges.Insert (Rs it)
     {| ranges.Pos := offset; ranges.Size := add64 offset size |}) it, w)) as H.
  destruct (_save _) as [e [it' w']]. simpl in *. exact H.
Qed.

Lemma int64_id z : in_int64 z -> int64 z = z.
Proof.
  unfold in_int64, int64. intros H.
  rewrite Z.mod_small by lia. lia.
Qed.

(** What _written marks present: the bytes from [offset] up to
    [offset + (offset + size)], not up to [offset + size]. *)
Lemma _written_covers offset size st x :
  in_int64 (offset + size) ->
  ranges.covers (Rs (fst (snd (_written offset size st)))) x
  = ((offset <=? x) && (x <? offset + (offset + size)))
    || ranges.covers (Rs (fst st)) x.
Proof.
  intros Hr. rewrite _written_item. simpl.
  rewrite Insert_covers. unfold ranges.contains, ranges.End, add64. simpl.
  rewrite int64_id by assumption. reflexivity.
Qed.

(** ** _written and WriteAt (C1) *)

(** C1 (the code departs from the claim): a WriteAt of 3 bytes at offset 5
    on an open, empty item returns n = 3 and calls _written(5, 3), which
    inserts Range{Pos: 5, Size: 5+3}.  The present set becomes [5, 13)
    and not [5, 8): byte 8, outside the written interval and absent
    before, is present afterwards. *)
Theorem WriteAt_marks_past_the_write :
  let st := Scenario.opened 0 in
  let res := WriteAt [x01; x02; x03] 5 st in
  fst res = (3, None)
  /\ Rs (fst (snd res)) = [{| ranges.Pos := 5; ranges.Size := 8 |}]
  /\ ranges.contains {| ranges.Pos := 5; ranges.Size := 3 |} 8 = false
  /\ ranges.covers (Rs (fst st)) 8 = false
  /\ ranges.covers (Rs (fst (snd res))) 8 = true.
Proof. vm_compute. repeat split; reflexivity. Qed.

(** ** ReadAt and WriteAt on an item that is not open (C9) *)

(** C9: with a nil backing-file handle, ReadAt and WriteAt return n = 0
    and the didn't-Open internal error for every buffer and offset, and
    the item (opens, changed, Size, Rs, Fingerprint and all the rest) and
    the world are exactly as before. *)
Theorem ReadAt_WriteAt_not_open (b : list byte) (len off : Z) (st : St) :
  fd (fst st) = None ->
  ReadAt len off st
  = (([], 0, Some (New "vfs cache item ReadAt: internal error: didn't Open file")), st)
  /\ WriteAt b off st
     = ((0, Some (New "vfs cache item WriteAt: internal error: didn't Open file")), st).
Proof.
  destruct st as [it w]. simpl. intros Hfd.
  unfold ReadAt, WriteAt. go. rewrite Hfd. split; reflexivity.
Qed.

Lemma ReadAt_WriteAt_not_open_witness :
  let st := (Scenario.item_of 0 None None 4 (Scenario.whole 4) "F1",
             Scenario.world_of {[ "vfs/a.txt" := Scenario.zeros 4 ]}) in
  ReadAt 2 1 st
  = (([], 0, Some (New "vfs cache item ReadAt: internal error: didn't Open file")), st)
  /\ WriteAt [x01; x02] 1 st
     = ((0, Some (New "vfs cache item WriteAt: internal error: didn't Open file")), st).
Proof. apply (ReadAt_WriteAt_not_open [x01; x02] 2 1). reflexivity. Defined.

(** ** GetSize and Exists without a backing file (C10) *)

Lemma _getSize_state st : snd (_getSize st) = st.
Proof.
  destruct st as [it w]. unfold _getSize. go.
  destruct (match fd it with Some f => fd_Stat w f | None => os_Stat w _ end) as [n|e];
    [reflexivity|].
  destruct e, (o it); reflexivity.
Qed.

(** The stat of an open handle never reports not-exist. *)
Lemma fd_Stat_error w f e : fd_Stat w f = inr e -> IsNotExist (Some e) = false.
Proof.
  unfold fd_Stat, failed. destruct (files w !! f).
  - destruct (fault w FdStat f); [|discriminate]. intros [= <-]. reflexivity.
  - intros [= <-]. reflexivity.
Qed.






(** ** Close (C5, C6) *)

(** C6: Close first decrements opens.  When the result is negative it
    fails with os.ErrClosed; when it is still positive it returns success
    and only the access time and the count have changed: the handle, the
    metadata and every other file, the downloader and the remote object
    are untouched (the world changes by the caller's storeFn alone). *)
Theorem Close_decrements_first (storeFn : option StoreFn) (st : St) :
  let it := fst st in
  let w := snd st in
  let opens' := sub64 (opens it) 1 in
  (opens' < 0 ->
     Close storeFn st = (Some ErrClosed, (set_opens opens' (set_ATime (clock w) it), w)))
  /\ (0 < opens' ->
      Close storeFn st
      = (None, (set_opens opens' (set_ATime (clock w) it),
                match storeFn with Some f => f (o it) w | None => w end))).
Proof.
  destruct st as [it w]. simpl. unfold Close, Close_locked. go. split; intros H.
  - apply Z.ltb_lt in H. rewrite H. reflexivity.
  - assert (H1 : (sub64 (opens it) 1 <? 0) = false) by (apply Z.ltb_ge; lia).
    assert (H2 : (sub64 (opens it) 1 >? 0) = true) by (apply Z.gtb_lt; lia).
    rewrite H1, H2. simpl. destruct storeFn; reflexivity.
Qed.

Lemma Close_decrements_first_witness :
  (let st := (Scenario.item_of 0 None None 0 [] "", Scenario.world_of ∅) in
   Close None st
   = (Some ErrClosed, (set_opens (-1) (set_ATime 100 (fst st)), snd st)))
  /\ (let st := (Scenario.item_of 2 None (Some "vfs/a.txt") 4 (Scenario.whole 4) "",
                 Scenario.world_of {[ "vfs/a.txt" := Scenario.zeros 4 ]}) in
      Close None st = (None, (set_opens 1 (set_ATime 100 (fst st)), snd st))).
Proof.
  split.
  - apply (proj1 (Close_decrements_first None
                    (Scenario.item_of 0 None None 0 [] "", Scenario.world_of ∅))).
    vm_compute. reflexivity.
  - apply (proj2 (Close_decrements_first None
                    (Scenario.item_of 2 None (Some "vfs/a.txt") 4 (Scenario.whole 4) "",
                     Scenario.world_of {[ "vfs/a.txt" := Scenario.zeros 4 ]}))).
    vm_compute. reflexivity.
Defined.

Lemma same_handle_refl it : same_handle it it.
Proof. split; reflexivity. Qed.

Lemma same_handle_trans a b d : same_handle a b -> same_handle b d -> same_handle a d.
Proof. unfold same_handle. intros [] []. split; congruence. Qed.

Lemma bind_run {A B : Type} (m : M A) (k : A -> M B) (s : St) :
  bind m k s = k (fst (m s)) (snd (m s)).
Proof. unfold bind. destruct (m s). reflexivity. Qed.

Lemma _written_frame offset size st :
  same_handle (fst st) (fst (snd (_written offset size st))).
Proof. rewrite _written_item. split; reflexivity. Qed.

Lemma _newDownloader_frame st :
  same_handle (fst st) (fst (snd (_newDownloader st))).
Proof.
  destruct st as [it w]. unfold _newDownloader, newDownloader, downloader_close. go.
  destruct (o it); [|apply same_handle_refl].
  destruct (downloader it); simpl; destruct (failed _ DlNew _); split; reflexivity.
Qed.

Lemma downloader_start_frame offset st :
  same_handle (fst st) (fst (snd (downloader_start offset st))).
Proof.
  destruct st as [it w]. unfold downloader_start. go.
  destruct (downloader it), (failed w DlStart _); split; reflexivity.
Qed.

Lemma downloader_ensure_frame r st :
  same_handle (fst st) (fst (snd (downloader_ensure r st))).
Proof.
  destruct st as [it w]. unfold downloader_ensure.
  rewrite !bind_run. cbn [item world sys fst snd].
  destruct (failed _ DlEnsure _); [split; reflexivity|].
  rewrite bind_run. cbn [ret fst snd].
  apply (_written_frame _ _ (it, emit (EvDlEnsure (name it) r) w)).
Qed.

Lemma _ensure_frame offset size st :
  same_handle (fst st) (fst (snd (_ensure offset size st))).
Proof.
  destruct st as [it w]. unfold _ensure.
  rewrite bind_run. cbn [item fst snd].
  destruct (ranges.Present _ _); [apply same_handle_refl|].
  rewrite bind_run.
  pose proof (_newDownloader_frame (it, w)) as H1.
  destruct (_newDownloader (it, w)) as [e [it1 w1]]. cbn [fst snd] in *.
  destruct e; [exact H1|].
  rewrite bind_run. cbn [item fst snd].
  destruct (downloader it1) as [d|]; [|exact H1].
  destruct (negb (downloader_running d)).
  - rewrite bind_run.
    pose proof (downloader_start_frame offset (it1, w1)) as H2.
    destruct (downloader_start offset (it1, w1)) as [e [it2 w2]]. cbn [fst snd] in *.
    destruct e; [eapply same_handle_trans; eassumption|].
    eapply same_handle_trans; [exact H1|].
    eapply same_handle_trans; [exact H2|].
    apply (downloader_ensure_frame _ (it2, w2)).
  - eapply same_handle_trans; [exact H1|].
    apply (downloader_ensure_frame _ (it1, w1)).
Qed.

Lemma _ensure_present offset size st :
  ranges.Present (Rs (fst st))
    {| ranges.Pos := offset; ranges.Size := _ensure_size (fst st) offset size |} = true ->
  _ensure offset size st = (None, st).
Proof.
  destruct st as [it w]. simpl. intros H. unfold _ensure.
  rewrite bind_run. cbn [item fst snd]. rewrite H. reflexivity.
Qed.

Lemma _store_frame st :
  same_handle (fst st) (fst (snd (_store st))).
Proof.
  unfold _store. rewrite bind_run.
  pose proof (_ensure_frame 0 maxInt64 st) as H1.
  destruct (_ensure 0 maxInt64 st) as [e [it1 w1]]. cbn [fst snd] in *.
  destruct e; [exact H1|]. go.
  destruct (fcache_NewObject _ _ _); [|exact H1].
  unfold copyObj. cbn. destruct (failed w1 CopyObj (name it1)); exact H1.
Qed.

Lemma _store_present st :
  ranges.Present (Rs (fst st))
    {| ranges.Pos := 0; ranges.Size := _ensure_size (fst st) 0 maxInt64 |} = true ->
  downloader (fst (snd (_store st))) = downloader (fst st).
Proof.
  intros H. unfold _store. rewrite bind_run, (_ensure_present _ _ _ H).
  destruct st as [it w]. go.
  destruct (fcache_NewObject _ _ _); [|reflexivity].
  unfold copyObj. cbn. destruct (failed w CopyObj (name it)); reflexivity.
Qed.

Lemma _setModTime_item t st : fst (snd (_setModTime t st)) = fst st.
Proof.
  destruct st as [it w]. unfold _setModTime. go.
  destruct (os_Chtimes _ t w). reflexivity.
Qed.

Lemma _present_state st : snd (_present st) = st.
Proof.
  destruct st as [it w]. unfold _present. go.
  destruct (downloader it) as [d|]; [destruct (downloader_running d)|]; reflexivity.
Qed.

Lemma _getSize_reads it it' w :
  fd it = fd it' -> c it = c it' -> name it = name it' -> o it = o it' ->
  fst (_getSize (it, w)) = fst (_getSize (it', w)).
Proof.
  intros Hf Hc Hn Ho. unfold _getSize. go. rewrite Hf, Hc, Hn, Ho.
  destruct (match fd it' with Some f => fd_Stat w f | None => os_Stat w _ end) as [n|e];
    [reflexivity|].
  destruct e, (o it'); reflexivity.
Qed.

Lemma Close_locked_ok st :
  fst (fst (Close_locked st)) = None ->
  closed_or_still_open st (fst (snd (Close_locked st))).
Proof.
  destruct st as [it w]. unfold Close_locked.
  rewrite !bind_run. cbn [time_Now update item fst snd].
  set (it1 := set_opens _ _).
  destruct (opens it1 <? 0) eqn:Hneg; [discriminate|].
  destruct (opens it1 >? 0) eqn:Hpos.
  { intros _. left. apply Z.gtb_lt in Hpos. cbn. auto. }
  assert (H0 : opens it1 = 0) by (apply Z.ltb_ge in Hneg; rewrite Z.gtb_ltb in Hpos; apply Z.ltb_ge in Hpos; lia).
  rewrite bind_run, (_getSize_state (it1, w)).
  set (r := fst (_getSize (it1, w))).
  rewrite bind_run.
  set (st2 := snd ((if isNil (snd r) then update (set_Size (fst r)) else ret tt) (it1, w))).
  rewrite bind_run.
  assert (Hst2 : exists w2, st2 = (set_Size (if isNil (snd r) then fst r else Size it) it1, w2)).
  { subst st2. destruct (isNil (snd r)); cbn; eexists; reflexivity. }
  destruct Hst2 as [w2 Hst2]. rewrite Hst2. clear st2 Hst2.
  set (it2 := set_Size _ it1).
  pose proof (_save_item (it2, w2)) as Hsave.
  destruct (_save (it2, w2)) as [e [it3 w3]]. cbn [fst snd] in *. subst it3.
  destruct e; [discriminate|].
  rewrite !bind_run. cbn [item update fst snd].
  destruct (fd it2) as [f|] eqn:Hfd; [|discriminate].
  rewrite !bind_run. cbn [item world update fst snd].
  rewrite _present_state.
  set (it4 := set_fd None (set_downloader None it2)).
  set (pres := fst (_present (it4, w3))).
  set (st5 := snd ((if negb (changed it4) && pres
                    then match o it4 with
                         | Some obj => _setModTime (fs.ModTime obj)
                         | None => ret tt
                         end
                    else ret tt) (it4, w3))).
  assert (Hst5 : exists w5, st5 = (it4, w5)).
  { subst st5. destruct (negb (changed it4) && pres); [|eexists; reflexivity].
    destruct (o it4); [|eexists; reflexivity].
    pose proof (_setModTime_item (fs.ModTime o0) (it4, w3)) as H.
    destruct (_setModTime _ _) as [u [i5 w5]]. cbn in H. subst. eexists; reflexivity. }
  destruct Hst5 as [w5 Hst5]. rewrite Hst5. clear st5 Hst5.
  destruct (changed it4) eqn:Hch.
  - rewrite bind_run.
    pose proof (_store_frame (it4, w5)) as [Ho Hf].
    pose proof (_store_present (it4, w5)) as Hp.
    destruct (_store (it4, w5)) as [e [it6 w6]]. cbn [fst snd] in *.
    destruct e; [discriminate|]. intros _. right. cbn.
    rewrite Ho, Hf. cbn. split; [exact H0|]. split; [reflexivity|].
    intros [Hc|Hc]; [cbn in Hch; congruence|].
    rewrite Hp; [reflexivity|].
    unfold present_at_close in Hc. cbn [fst snd] in Hc.
    rewrite (_getSize_reads it it1 w) in Hc by reflexivity. exact Hc.
  - cbn. intros _. right. auto.
Qed.


Lemma Close_item storeFn st :
  fst (snd (Close storeFn st)) = fst (snd (Close_locked st))
  /\ (fst (Close storeFn st) = None -> fst (fst (Close_locked st)) = None).
Proof.
  unfold Close. rewrite bind_run.
  destruct (Close_locked st) as [[e dl] [it1 w1]]. cbn [fst snd].
  rewrite !bind_run.
  destruct dl as [d|].
  - rewrite !bind_run. cbn [item sys downloader_close fst snd ret].
    destruct (failed w1 DlClose (name it1)) as [ce|], e as [e|], storeFn as [f|];
      cbn; split; try reflexivity; discriminate.
  - cbn [ret fst snd]. destruct e as [e|], storeFn as [f|]; cbn; split; try reflexivity; discriminate.
Qed.

(** C5 (amended): a Close that returns no error either leaves opens
    positive, with the handle and the downloader as they were, or leaves
    opens = 0 and the handle nil; in the second case the downloader is nil
    as well whenever the item was clean or wholly present at the close, so
    that the upload had nothing to fetch. *)
Theorem Close_no_error (storeFn : option StoreFn) (st st' : St) :
  Close storeFn st = (None, st') ->
  (0 < opens (fst st') /\ fd (fst st') = fd (fst st)
   /\ downloader (fst st') = downloader (fst st))
  \/ (opens (fst st') = 0 /\ fd (fst st') = None
      /\ (changed (fst st) = false \/ present_at_close st = true ->
          downloader (fst st') = None)).
Proof.
  intros H. destruct (Close_item storeFn st) as [Hit Herr].
  rewrite H in Hit, Herr. cbn [fst snd] in *. rewrite Hit.
  apply Close_locked_ok. apply Herr. reflexivity.
Qed.

Lemma Close_no_error_witness :
  let st := Scenario.opened 4 in
  let st' := snd (Close None st) in
  (0 < opens (fst st') /\ fd (fst st') = fd (fst st)
   /\ downloader (fst st') = downloader (fst st))
  \/ (opens (fst st') = 0 /\ fd (fst st') = None
      /\ (changed (fst st) = false \/ present_at_close st = true ->
          downloader (fst st') = None)).
Proof.
  apply (Close_no_error None (Scenario.opened 4)). vm_compute. reflexivity.
Defined.

(** C5 as stated fails: with two opens, the first Close returns no error
    and leaves opens = 1 and the handle in place. *)
Lemma Close_success_with_opens_left :
  ~ (forall (storeFn : option StoreFn) (st : St),
       fst (Close storeFn st) = None ->
       opens (fst (snd (Close storeFn st))) = 0
       /\ fd (fst (snd (Close storeFn st))) = None
       /\ downloader (fst (snd (Close storeFn st))) = None).
Proof.
  intros H.
  specialize (H None (Scenario.item_of 2 None (Some "vfs/a.txt") 4 (Scenario.whole 4) "",
                      Scenario.world_of {[ "vfs/a.txt" := Scenario.zeros 4 ]})).
  vm_compute in H. destruct (H eq_refl) as [H1 _]. discriminate H1.
Qed.

(** The last Close of a dirty item that is not wholly present: the upload
    starts a downloader, which stays attached to the item, and is never
    closed, after Close has returned without error. *)
Lemma Close_leaves_upload_downloader :
  let res := Close None Scenario.dirty_partial in
  fst res = None
  /\ opens (fst (snd res)) = 0
  /\ downloader (fst (snd res))
     = Some {| dl_o := Scenario.remote2; dl_running := true |}
  /\ trace (snd (snd res))
     = [EvNewDownloader "a.txt" Scenario.remote2; EvDlStart "a.txt" 0;
        EvDlEnsure "a.txt" {| ranges.Pos := 0; ranges.Size := 7 |};
        EvCopyObj "a.txt" 7].
Proof. vm_compute. repeat split; reflexivity. Qed.

(** ** _ensure (C8) *)

(** C8 (amended): for non-negative offset, length and item size, with
    offset + length within int64, a request that reaches past the end of
    the item is cut to Size - offset and no clamped request ends past the
    end; the clamped length is non-negative exactly when the offset is not
    past the end.  For every request, whenever the clamped range is
    present, _ensure returns nil at once: item and world, hence the
    downloader, are untouched. *)
Theorem _ensure_clamps (offset size : Z) (st : St) :
  let size' := _ensure_size (fst st) offset size in
  (0 <= offset -> 0 <= size -> 0 <= Size (fst st) < 2 ^ 63 -> offset + size < 2 ^ 63 ->
   (Size (fst st) < offset + size -> size' = Size (fst st) - offset)
   /\ offset + size' <= Size (fst st)
   /\ (0 <= size' <-> offset <= Size (fst st)))
  /\ (ranges.Present (Rs (fst st)) {| ranges.Pos := offset; ranges.Size := size' |} = true ->
      _ensure offset size st = (None, st)).
Proof.
  intros size'. split; [|apply _ensure_present].
  intros Ho Hs Hsz Hsum.
  assert (Hsize' : size' = if offset + size >? Size (fst st)
                           then Size (fst st) - offset else size).
  { unfold size', _ensure_size, add64, sub64.
    rewrite !int64_id by (unfold in_int64; lia). reflexivity. }
  rewrite Hsize'.
  destruct (offset + size >? Size (fst st)) eqn:E; rewrite Z.gtb_ltb in E;
    [apply Z.ltb_lt in E | apply Z.ltb_ge in E]; lia.
Qed.

Lemma _ensure_clamps_witness :
  let st := Scenario.opened 4 in
  _ensure_size (fst st) 2 5 = 2 /\ _ensure 2 5 st = (None, st).
Proof.
  assert (Hsz : 0 <= Size (fst (Scenario.opened 4)) < 2 ^ 63)
    by (vm_compute; split; [discriminate | reflexivity]).
  destruct (_ensure_clamps 2 5 (Scenario.opened 4)) as [H1 H2].
  destruct (H1 ltac:(lia) ltac:(lia) Hsz ltac:(reflexivity)) as (H3 & _ & _).
  split.
  - apply H3. vm_compute. reflexivity.
  - apply H2. vm_compute. reflexivity.
Defined.

(** C8 as stated fails: with the offset past the end of the item the
    clamped length is negative. *)
Lemma _ensure_size_negative :
  let it := Scenario.item_of 1 None (Some "vfs/a.txt") 4 (Scenario.whole 4) "" in
  _ensure_size it 10 5 = -6 /\ ~ (0 <= _ensure_size it 10 5).
Proof. vm_compute. split; [reflexivity|]. intros H. apply H. reflexivity. Qed.

(** ** Ranges within the size (C2) *)

Lemma _remove_item reason st :
  fst (snd (_remove reason st))
  = set_ATime (clock (snd st)) (set_Size 0 (set_Fingerprint "" (set_Rs [] (fst st)))).
Proof.
  destruct st as [it w]. unfold _remove, clean, _removeFile, _removeMeta. go.
  destruct (os_Remove (toOSPath _ _) w) as [e1 w1]. simpl.
  destruct (os_Remove (toOSPathMeta _ _) w1) as [e2 w2]. reflexivity.
Qed.

Lemma truncate_item size st : fst (snd (truncate size st)) = fst st.
Proof.
  destruct st as [it w]. unfold truncate.
  destruct (size <? 0); [reflexivity|]. go.
  destruct (fd it) as [f|]; cbn.
  - destruct (fd_Truncate f size w) as [[e|] w1]; reflexivity.
  - destruct (file_OpenFile _ true w) as [[f|e] w1]; simpl; [|reflexivity].
    destruct (file_SetSparse f w1) as [e1 w2]. simpl.
    destruct (fd_Truncate f size w2) as [[e|] w3]; reflexivity.
Qed.









(** ** Extending Truncate (C4) *)

(** What an extending Truncate does to the item: _written is called with
    the old and the new size, and inserts Range{Pos: old, Size: old+new}. *)
Lemma Truncate_extends size st :
  fst (Truncate size st) = None -> current_size st < size ->
  fst (snd (Truncate size st))
  = set_changed true
      (set_Rs (ranges.Insert (Rs (fst st))
                 {| ranges.Pos := current_size st;
                    ranges.Size := add64 (current_size st) size |})
         (set_Size size (fst st))).
Proof.
  unfold current_size, Truncate. rewrite bind_run.
  unfold GetSize. rewrite (_getSize_state st).
  destruct (fst (_getSize st)) as [sz [e|]]; cbn [fst snd].
  - destruct (negb (IsNotExist (CauseOpt (Some e)))); [discriminate|].
    rewrite bind_run.
    pose proof (truncate_item size st) as Ht.
    destruct (truncate size st) as [[e1|] [it1 w1]]; [discriminate|].
    cbn [fst snd] in *. subst it1. intros _ Hlt.
    assert (H1 : (size >? 0) = true) by (rewrite Z.gtb_ltb; apply Z.ltb_lt; lia).
    rewrite H1. rewrite !bind_run. cbn [update fst snd ret].
    rewrite _written_item. reflexivity.
  - rewrite bind_run.
    pose proof (truncate_item size st) as Ht.
    destruct (truncate size st) as [[e1|] [it1 w1]]; [discriminate|].
    cbn [fst snd] in *. subst it1. intros _ Hlt.
    assert (H1 : (size >? sz) = true) by (rewrite Z.gtb_ltb; apply Z.ltb_lt; lia).
    rewrite H1. rewrite !bind_run. cbn [update fst snd ret].
    rewrite _written_item. reflexivity.
Qed.

(** C4 (the code departs from the claim): scenario S4.  An open item of 4
    bytes, all present, is truncated to 10.  Truncate succeeds with
    Size = 10 and changed = true, but the present set is [0, 18) and not
    [0, 10): byte 10, past the new end of the file, is present. *)
Theorem Truncate_extension_marks_past_the_end :
  let st := Scenario.opened 4 in
  let res := Truncate 10 st in
  Size (fst st) = 4 /\ Rs (fst st) = [{| ranges.Pos := 0; ranges.Size := 4 |}]
  /\ fst res = None
  /\ Size (fst (snd res)) = 10
  /\ changed (fst (snd res)) = true
  /\ Rs (fst (snd res)) = [{| ranges.Pos := 0; ranges.Size := 18 |}]
  /\ ranges.covers (Rs (fst (snd res))) 10 = true.
Proof. vm_compute. repeat split; reflexivity. Qed.

(** ** Open against a changed remote object (C3) *)

Lemma os_Remove_lookup path p w :
  files (snd (os_Remove path w)) !! p = None
  <-> files w !! p = None \/ (p = path /\ fault w OsRemove path = None).
Proof.
  unfold os_Remove, failed.
  destruct (files w !! path) eqn:E; cbn [snd].
  - destruct (fault w OsRemove path) eqn:F; cbn [snd set_files files].
    + split; [auto|]. intros [H|[_ H]]; [exact H|discriminate].
    + rewrite lookup_delete. destruct (decide (path = p)) as [->|Hne].
      * split; auto.
      * split; [auto|]. intros [H|[H _]]; [exact H|congruence].
  - split; [auto|]. intros [H|[-> _]]; [exact H|exact E].
Qed.

Lemma os_Remove_fault path w : fault (snd (os_Remove path w)) = fault w.
Proof.
  unfold os_Remove. destruct (files w !! path); [|reflexivity].
  destruct (failed w OsRemove path); reflexivity.
Qed.

(** _remove takes both files off the disk, unless the system refuses. *)
Lemma _remove_files reason st :
  let it := fst st in
  fault (snd st) OsRemove (toOSPath (c it) (name it)) = None ->
  fault (snd st) OsRemove (toOSPathMeta (c it) (name it)) = None ->
  files (snd (snd (_remove reason st))) !! toOSPath (c it) (name it) = None
  /\ files (snd (snd (_remove reason st))) !! toOSPathMeta (c it) (name it) = None.
Proof.
  destruct st as [it w]. cbn [fst snd]. intros F1 F2.
  unfold _remove, clean, _removeFile, _removeMeta. go.
  pose proof (os_Remove_lookup (toOSPath (c it) (name it)) (toOSPath (c it) (name it)) w) as L1.
  pose proof (os_Remove_fault (toOSPath (c it) (name it)) w) as Hf.
  destruct (os_Remove (toOSPath _ _) w) as [e1 w1]. cbn [fst snd] in *.
  pose proof (os_Remove_lookup (toOSPathMeta (c it) (name it))
                (toOSPath (c it) (name it)) w1) as L2.
  pose proof (os_Remove_lookup (toOSPathMeta (c it) (name it))
                (toOSPathMeta (c it) (name it)) w1) as L3.
  destruct (os_Remove (toOSPathMeta _ _) w1) as [e2 w2]. cbn [fst snd] in *.
  split.
  - apply L2. left. apply L1. right. auto.
  - apply L3. right. split; [reflexivity|]. rewrite Hf. exact F2.
Qed.

(** What checkObject does with a remote object whose fingerprint differs
    from a non-empty cached one: the cached state is cleaned, size and
    object are taken from the remote, and the fingerprint stays empty. *)
Lemma checkObject_stale obj st :
  Fingerprint (fst st) <> "" ->
  objectFingerprint (c (fst st)) obj <> Fingerprint (fst st) ->
  fst (snd (checkObject (Some obj) st))
  = set_o (Some obj)
      (set_Size (fs.Size obj)
         (set_ATime (clock (snd st))
            (set_Size 0 (set_Fingerprint "" (set_Rs [] (fst st)))))).
Proof.
  intros Hne Hdiff. unfold checkObject. rewrite bind_run. cbn [item fst snd].
  apply String.eqb_neq in Hne, Hdiff. rewrite Hne, Hdiff. cbn [negb].
  rewrite !bind_run. cbn [update fst snd].
  rewrite _remove_item. reflexivity.
Qed.

(** C3 (the code departs from the claim): scenario S3.  The cache holds
    fingerprint F1 and both files; Open is given a remote object of size 7
    whose fingerprint is F2.  checkObject removes both files and empties
    the ranges, and Open succeeds with Size = 7 and the object set, but
    the fingerprint is left empty instead of F2. *)
Theorem Open_stale_leaves_fingerprint_empty :
  let st := Scenario.stale in
  let obj := Scenario.remote2 in
  let st1 := snd (checkObject (Some obj) st) in
  let res := Open (Some obj) st in
  Fingerprint (fst st) = "F1" /\ objectFingerprint (c (fst st)) obj = "F2"
  /\ files (snd st1) !! "vfs/a.txt" = None /\ files (snd st1) !! "vfsMeta/a.txt" = None
  /\ Rs (fst st1) = [] /\ Fingerprint (fst st1) = ""
  /\ fst res = None
  /\ Rs (fst (snd res)) = []
  /\ Size (fst (snd res)) = 7
  /\ o (fst (snd res)) = Some obj
  /\ Fingerprint (fst (snd res)) = "".
Proof. vm_compute. repeat split; reflexivity. Qed.

(** ** newItem on corrupt metadata (C7) *)

(** C7 (the code departs from the claim): scenario S6.  The backing file
    holds 3 bytes and the metadata is malformed.  newItem removes both
    files and empties ranges and fingerprint, then sets Size from the stat
    made before the removal: Size = 3, not 0. *)
Theorem newItem_corrupt_keeps_file_size :
  let w := Scenario.corrupt in
  let st := newItem Scenario.cache "a.txt" w in
  files w !! "vfs/a.txt" = Some (Scenario.zeros 3)
  /\ (exists b, files w !! "vfsMeta/a.txt" = Some b /\ json_Decode w b = None)
  /\ files (snd st) !! "vfs/a.txt" = None
  /\ files (snd st) !! "vfsMeta/a.txt" = None
  /\ Rs (fst st) = []
  /\ Fingerprint (fst st) = ""
  /\ Size (fst st) = 3.
Proof.
  cbv zeta. split; [vm_compute; reflexivity|].
  split; [exists [x7b]; split; vm_compute; reflexivity|].
  vm_compute. repeat split; reflexivity.
Qed.

Lemma load_undecodable it w m :
  files w !! toOSPathMeta (c it) (name it) = Some m ->
  fault w OsOpen (toOSPathMeta (c it) (name it)) = None ->
  json_Decode w m = None ->
  exists e, load (it, w) = ((true, Some e), (it, w)).
Proof.
  intros Hm Ho Hd. unfold load. go. unfold os_Open, failed. rewrite Hm, Ho, Hd.
  unfold fs_CheckClose. destruct (fd_Close w _); eexists; reflexivity.
Qed.

(** In general: a backing file of [lenZ b] bytes next to undecodable
    metadata gives an item with empty ranges and fingerprint and with the
    size of the removed file. *)
Lemma newItem_undecodable cc n w b m :
  files w !! toOSPath cc n = Some b -> fault w OsStat (toOSPath cc n) = None ->
  files w !! toOSPathMeta cc n = Some m -> fault w OsOpen (toOSPathMeta cc n) = None ->
  json_Decode w m = None ->
  Rs (fst (newItem cc n w)) = []
  /\ Fingerprint (fst (newItem cc n w)) = ""
  /\ Size (fst (newItem cc n w)) = lenZ b.
Proof.
  intros Hb Hs Hm Ho Hd.
  assert (H : exists it0, fst (newItem cc n w)
                          = set_Size (lenZ b) (set_Size 0 (set_Fingerprint "" (set_Rs [] it0)))).
  { unfold newItem, os_Stat, failed. rewrite Hb, Hs.
    set (item0 := {| c := cc |}).
    destruct (load_undecodable item0 w m Hm Ho Hd) as [e He].
    unfold bind at 1. cbn [ret].
    unfold bind at 1. rewrite He. cbn [fst snd negb isNil].
    rewrite !bind_run. cbn [update fst snd].
    rewrite _remove_item. cbn [fst snd].
    exists (set_ATime (clock w) item0). reflexivity. }
  destruct H as [it0 ->]. cbn. auto.
Qed.

(** ** Further properties of the item engine *)

(** *** Truncate *)

(** The item after Truncate, on every path. *)
Lemma Truncate_item size st :
  fst (snd (Truncate size st))
  = match fst (Truncate size st) with
    | Some _ => fst st
    | None =>
        if size >? current_size st then
          set_changed true
            (set_Rs (ranges.Insert (Rs (fst st))
                       {| ranges.Pos := current_size st;
                          ranges.Size := add64 (current_size st) size |})
               (set_Size size (fst st)))
        else if size <? current_size st then
          set_changed true
            (set_Rs (ranges.Intersection (Rs (fst st))
                       {| ranges.Pos := 0; ranges.Size := size |})
               (set_Size size (fst st)))
        else set_changed (isNil (o (fst st))) (set_Size size (fst st))
    end.
Proof.
  unfold current_size, Truncate. rewrite !bind_run.
  unfold GetSize. rewrite (_getSize_state st).
  destruct (fst (_getSize st)) as [sz [e|]]; cbn [fst snd].
  - destruct (negb (IsNotExist (CauseOpt (Some e)))); [reflexivity|].
    rewrite !bind_run.
    pose proof (truncate_item size st) as Ht.
    destruct (truncate size st) as [[e1|] [it1 w1]]; cbn [fst snd] in *; subst it1;
      [reflexivity|].
    rewrite !bind_run. cbn [update fst snd].
    destruct (size >? 0).
    + rewrite !bind_run. cbn [update ret fst snd]. rewrite _written_item. reflexivity.
    + destruct (size <? 0); reflexivity.
  - rewrite !bind_run.
    pose proof (truncate_item size st) as Ht.
    destruct (truncate size st) as [[e1|] [it1 w1]]; cbn [fst snd] in *; subst it1;
      [reflexivity|].
    rewrite !bind_run. cbn [update fst snd].
    destruct (size >? sz).
    + rewrite !bind_run. cbn [update ret fst snd]. rewrite _written_item. reflexivity.
    + destruct (size <? sz); reflexivity.
Qed.

Lemma Truncate_frame size st :
  same_handle (fst st) (fst (snd (Truncate size st))).
Proof.
  rewrite Truncate_item. destruct (fst (Truncate size st)); [apply same_handle_refl|].
  destruct (size >? current_size st); [split; reflexivity|].
  destruct (size <? current_size st); split; reflexivity.
Qed.

(** A shrinking Truncate clips the present set to the new size: a byte is
    present afterwards exactly when it was present and lies below the new
    size; the item takes the new size and is dirty. *)
Theorem Truncate_shrink_clips (size : Z) (st : St) (x : Z) :
  fst (Truncate size st) = None -> size < current_size st ->
  Size (fst (snd (Truncate size st))) = size
  /\ changed (fst (snd (Truncate size st))) = true
  /\ ranges.covers (Rs (fst (snd (Truncate size st)))) x
     = ranges.covers (Rs (fst st)) x && ((0 <=? x) && (x <? size)).
Proof.
  intros Hok Hlt. rewrite Truncate_item, Hok.
  assert (H1 : (size >? current_size st) = false)
    by (rewrite Z.gtb_ltb; apply Z.ltb_ge; lia).
  assert (H2 : (size <? current_size st) = true) by (apply Z.ltb_lt; lia).
  rewrite H1, H2. cbn [Size changed Rs set_changed set_Rs set_Size].
  repeat split. rewrite Intersection_covers. unfold ranges.contains, ranges.End.
  cbn [ranges.Pos ranges.Size]. rewrite Z.add_0_l. reflexivity.
Qed.

Lemma Truncate_shrink_clips_witness :
  let st' := snd (Truncate 3 (Scenario.opened 10)) in
  Size (fst st') = 3 /\ changed (fst st') = true
  /\ ranges.covers (Rs (fst st')) 2 = true && ((0 <=? 2) && (2 <? 3)).
Proof.
  apply (Truncate_shrink_clips 3 (Scenario.opened 10) 2); vm_compute; reflexivity.
Defined.

(** A Truncate to the size the item already has keeps the present set and
    makes the item dirty exactly when it has no remote object. *)
Theorem Truncate_same_size (size : Z) (st : St) :
  fst (Truncate size st) = None -> size = current_size st ->
  Rs (fst (snd (Truncate size st))) = Rs (fst st)
  /\ Size (fst (snd (Truncate size st))) = size
  /\ changed (fst (snd (Truncate size st))) = isNil (o (fst st)).
Proof.
  intros Hok Heq. rewrite Truncate_item, Hok.
  assert (H1 : (size >? current_size st) = false)
    by (rewrite Z.gtb_ltb; apply Z.ltb_ge; lia).
  assert (H2 : (size <? current_size st) = false) by (apply Z.ltb_ge; lia).
  rewrite H1, H2. cbn. auto.
Qed.

Lemma Truncate_same_size_witness :
  let st' := snd (Truncate 4 (Scenario.opened 4)) in
  Rs (fst st') = Rs (fst (Scenario.opened 4)) /\ Size (fst st') = 4
  /\ changed (fst st') = isNil (o (fst (Scenario.opened 4))).
Proof.
  apply (Truncate_same_size 4 (Scenario.opened 4)); vm_compute; reflexivity.
Defined.

(** A Truncate that fails, whether on reading the size or on resizing the
    file, leaves every field of the item as it was. *)
Theorem Truncate_error_keeps_item (size : Z) (st : St) (e : error) :
  fst (Truncate size st) = Some e ->
  fst (snd (Truncate size st)) = fst st.
Proof. intros H. rewrite Truncate_item, H. reflexivity. Qed.

Lemma Truncate_error_keeps_item_witness :
  let st := (fst (Scenario.opened 4),
             Scenario.world_failing (fun op => match op with FdTruncate => true | _ => false end)
               {[ "vfs/a.txt" := Scenario.zeros 4 ]}) in
  fst (snd (Truncate 10 st)) = fst st.
Proof.
  apply (Truncate_error_keeps_item 10
           (fst (Scenario.opened 4),
            Scenario.world_failing (fun op => match op with FdTruncate => true | _ => false end)
              {[ "vfs/a.txt" := Scenario.zeros 4 ]})
           (Wrap (ErrIO "EIO") "vfs truncate: failed to truncate")).
  vm_compute. reflexivity.
Defined.

(** *** checkObject *)

Lemma checkObject_match (obj : fs.Object) (st : St) :
  Fingerprint (fst st) = ""
  \/ objectFingerprint (c (fst st)) obj = Fingerprint (fst st) ->
  snd (snd (checkObject (Some obj) st)) = snd st
  /\ Rs (fst (snd (checkObject (Some obj) st))) = Rs (fst st)
  /\ Fingerprint (fst (snd (checkObject (Some obj) st))) = objectFingerprint (c (fst st)) obj
  /\ Size (fst (snd (checkObject (Some obj) st))) = fs.Size obj
  /\ o (fst (snd (checkObject (Some obj) st))) = Some obj.
Proof.
  destruct st as [it w]. cbn [fst snd]. intros H.
  unfold checkObject. rewrite !bind_run. cbn [item fst snd].
  destruct (String.eqb (Fingerprint it) "") eqn:E1; cbn [negb].
  - rewrite ?bind_run. cbn. auto.
  - destruct H as [H|H]; [apply String.eqb_eq in H; congruence|].
    rewrite H, String.eqb_refl. cbn [negb].
    rewrite ?bind_run. cbn. auto.
Qed.


(** With a remote object whose fingerprint matches the cached one, or with
    no cached fingerprint, reconciliation keeps the cache: no file is
    touched, the present ranges stay, and the item takes the remote's
    fingerprint, size and object. *)
Theorem checkObject_keeps_cache (obj : fs.Object) (st : St) :
  Fingerprint (fst st) = ""
  \/ objectFingerprint (c (fst st)) obj = Fingerprint (fst st) ->
  snd (snd (checkObject (Some obj) st)) = snd st
  /\ Rs (fst (snd (checkObject (Some obj) st))) = Rs (fst st)
  /\ Fingerprint (fst (snd (checkObject (Some obj) st))) = objectFingerprint (c (fst st)) obj
  /\ Size (fst (snd (checkObject (Some obj) st))) = fs.Size obj
  /\ o (fst (snd (checkObject (Some obj) st))) = Some obj.
Proof. apply checkObject_match. Qed.

Lemma checkObject_keeps_cache_witness :
  let st := (Scenario.item_of 0 None None 7 (Scenario.whole 7) "F2",
             Scenario.world_of {[ "vfs/a.txt" := Scenario.zeros 7 ]}) in
  let st' := snd (checkObject (Some Scenario.remote2) st) in
  snd st' = snd st /\ Rs (fst st') = Rs (fst st) /\ Fingerprint (fst st') = "F2"
  /\ Size (fst st') = 7 /\ o (fst st') = Some Scenario.remote2.
Proof.
  apply (checkObject_keeps_cache Scenario.remote2
           (Scenario.item_of 0 None None 7 (Scenario.whole 7) "F2",
            Scenario.world_of {[ "vfs/a.txt" := Scenario.zeros 7 ]})).
  right. reflexivity.
Defined.

Lemma checkObject_removing ob st :
  Fingerprint (fst st) <> "" ->
  match ob with
  | Some obj => objectFingerprint (c (fst st)) obj <> Fingerprint (fst st)
  | None => True
  end ->
  fst (snd (checkObject ob st))
  = set_o ob
      (match ob with
       | Some obj => set_Size (fs.Size obj)
       | None => fun it => it
       end (fst (snd (_remove "" st))))
  /\ snd (snd (checkObject ob st)) = snd (snd (_remove "" st)).
Proof.
  destruct st as [it w]. cbn [fst snd]. intros Hne Hdiff.
  unfold checkObject. rewrite !bind_run. cbn [item fst snd].
  apply String.eqb_neq in Hne. rewrite Hne. cbn [negb].
  assert (Hr : forall r1 r2, snd (_remove r1 (it, w)) = snd (_remove r2 (it, w)))
    by reflexivity.
  destruct ob as [obj|].
  - apply String.eqb_neq in Hdiff. rewrite Hdiff. cbn [negb].
    rewrite ?bind_run. cbn [update fst snd].
    rewrite (Hr _ ""). split; reflexivity.
  - rewrite ?bind_run. cbn [update fst snd].
    rewrite (Hr _ ""). split; reflexivity.
Qed.

(** When the remote object is gone (nil) and the item has a cached
    fingerprint, reconciliation drops the cache: ranges, fingerprint and
    size are zeroed, the object is nil, and both files are removed unless
    the system refuses; with no cached fingerprint nothing but the object
    field changes. *)
Theorem checkObject_remote_deleted (st : St) :
  (Fingerprint (fst st) = "" ->
   snd (checkObject None st) = (set_o None (fst st), snd st))
  /\ (Fingerprint (fst st) <> "" ->
      Rs (fst (snd (checkObject None st))) = []
      /\ Fingerprint (fst (snd (checkObject None st))) = ""
      /\ Size (fst (snd (checkObject None st))) = 0
      /\ o (fst (snd (checkObject None st))) = None
      /\ (fault (snd st) OsRemove (toOSPath (c (fst st)) (name (fst st))) = None ->
          fault (snd st) OsRemove (toOSPathMeta (c (fst st)) (name (fst st))) = None ->
          files (snd (snd (checkObject None st))) !! toOSPath (c (fst st)) (name (fst st)) = None
          /\ files (snd (snd (checkObject None st)))
               !! toOSPathMeta (c (fst st)) (name (fst st)) = None)).
Proof.
  split.
  - destruct st as [it w]. cbn [fst snd]. intros H.
    unfold checkObject. rewrite !bind_run. cbn [item fst snd].
    rewrite H. reflexivity.
  - intros Hne. destruct (checkObject_removing None st Hne I) as [Hi Hw].
    rewrite Hi, Hw, _remove_item. cbn [Rs Fingerprint Size o set_o set_ATime set_Size
                                        set_Fingerprint set_Rs].
    repeat split; try reflexivity; apply (_remove_files "" st); assumption.
Qed.

Lemma checkObject_remote_deleted_witness :
  let st' := snd (checkObject None Scenario.stale) in
  Rs (fst st') = [] /\ Fingerprint (fst st') = "" /\ Size (fst st') = 0 /\ o (fst st') = None
  /\ files (snd st') !! "vfs/a.txt" = None /\ files (snd st') !! "vfsMeta/a.txt" = None.
Proof.
  destruct (proj2 (checkObject_remote_deleted Scenario.stale)) as (H1 & H2 & H3 & H4 & H5).
  - vm_compute. discriminate.
  - destruct (H5 eq_refl eq_refl) as [H6 H7]. repeat split; assumption.
Defined.

(** When the remote object's fingerprint differs from a non-empty cached
    one, reconciliation drops the cache and takes size and object from the
    remote, and both files are removed unless the system refuses; the
    fingerprint is left empty. *)
Theorem checkObject_changed_remote (obj : fs.Object) (st : St) :
  Fingerprint (fst st) <> "" ->
  objectFingerprint (c (fst st)) obj <> Fingerprint (fst st) ->
  Rs (fst (snd (checkObject (Some obj) st))) = []
  /\ Fingerprint (fst (snd (checkObject (Some obj) st))) = ""
  /\ Size (fst (snd (checkObject (Some obj) st))) = fs.Size obj
  /\ o (fst (snd (checkObject (Some obj) st))) = Some obj
  /\ (fault (snd st) OsRemove (toOSPath (c (fst st)) (name (fst st))) = None ->
      fault (snd st) OsRemove (toOSPathMeta (c (fst st)) (name (fst st))) = None ->
      files (snd (snd (checkObject (Some obj) st))) !! toOSPath (c (fst st)) (name (fst st))
      = None
      /\ files (snd (snd (checkObject (Some obj) st)))
           !! toOSPathMeta (c (fst st)) (name (fst st)) = None).
Proof.
  intros Hne Hdiff. destruct (checkObject_removing (Some obj) st Hne Hdiff) as [Hi Hw].
  rewrite Hi, Hw, _remove_item. cbn [Rs Fingerprint Size o set_o set_ATime set_Size
                                      set_Fingerprint set_Rs].
  repeat split; try reflexivity; apply (_remove_files "" st); assumption.
Qed.

Lemma checkObject_changed_remote_witness :
  let st' := snd (checkObject (Some Scenario.remote2) Scenario.stale) in
  Rs (fst st') = [] /\ Fingerprint (fst st') = "" /\ Size (fst st') = 7
  /\ o (fst st') = Some Scenario.remote2
  /\ files (snd st') !! "vfs/a.txt" = None /\ files (snd st') !! "vfsMeta/a.txt" = None.
Proof.
  destruct (checkObject_changed_remote Scenario.remote2 Scenario.stale)
    as (H1 & H2 & H3 & H4 & H5).
  - vm_compute. discriminate.
  - vm_compute. discriminate.
  - destruct (H5 eq_refl eq_refl) as [H6 H7]. repeat split; assumption.
Defined.

(** *** Open *)

Lemma checkObject_frame ob st :
  same_handle (fst st) (fst (snd (checkObject ob st))).
Proof.
  destruct st as [it w]. unfold checkObject. rewrite !bind_run. cbn [item fst snd].
  destruct ob as [obj|].
  - destruct (negb (String.eqb (Fingerprint it) "")).
    + destruct (negb (String.eqb (objectFingerprint (c it) obj) (Fingerprint it))).
      * rewrite ?bind_run. cbn [update fst snd]. rewrite _remove_item. split; reflexivity.
      * split; reflexivity.
    + split; reflexivity.
  - destruct (negb (String.eqb (Fingerprint it) "")).
    + cbn [update fst snd]. rewrite _remove_item. split; reflexivity.
    + split; reflexivity.
Qed.

Lemma truncateToCurrentSize_frame st :
  same_handle (fst st) (fst (snd (truncateToCurrentSize st))).
Proof.
  unfold truncateToCurrentSize. rewrite bind_run.
  unfold GetSize. rewrite (_getSize_state st).
  destruct (snd (fst (_getSize st))).
  - destruct (negb _); [apply same_handle_refl|].
    destruct (_ <? 0); [apply same_handle_refl|apply Truncate_frame].
  - destruct (_ <? 0); [apply same_handle_refl|apply Truncate_frame].
Qed.

Lemma file_OpenFile_handle path create w f w' :
  file_OpenFile path create w = (inl f, w') -> f = path.
Proof.
  unfold file_OpenFile.
  destruct (files w !! path); [|destruct create];
    try destruct (failed w FileOpenFile path); intros [= <- <-] || intros [=]; reflexivity.
Qed.

(** The count and the handle after Open, on every path. *)
Lemma Open_shape ob st :
  opens (fst (snd (Open ob st))) = add64 (opens (fst st)) 1
  /\ (fd (fst (snd (Open ob st))) = fd (fst st)
      \/ (add64 (opens (fst st)) 1 = 1 /\ fd (fst st) = None
          /\ fd (fst (snd (Open ob st))) = Some (toOSPath (c (fst st)) (name (fst st)))))
  /\ (fst (Open ob st) = None -> add64 (opens (fst st)) 1 = 1 ->
      fd (fst st) = None
      /\ fd (fst (snd (Open ob st))) = Some (toOSPath (c (fst st)) (name (fst st)))).
Proof.
  destruct st as [it w]. cbn [fst snd].
  remember (Open ob (it, w)) as res eqn:E. unfold Open in E.
  rewrite !bind_run in E. cbn [time_Now update item fst snd] in E.
  set (it1 := set_opens _ _) in E.
  assert (Ho1 : opens it1 = add64 (opens it) 1) by reflexivity.
  assert (Hf1 : fd it1 = fd it) by reflexivity.
  assert (Hp1 : toOSPath (c it1) (name it1) = toOSPath (c it) (name it)) by reflexivity.
  unfold cache_mkdir, sys in E. cbn [fst snd] in E.
  destruct (failed w CacheMkdir (name it1)).
  { cbn in E. subst res. cbn [fst snd]. rewrite <- Ho1. split; [reflexivity|].
    split; [left; reflexivity|discriminate]. }
  cbn [fst snd ret] in E. rewrite !bind_run in E.
  pose proof (checkObject_frame ob (it1, emit (EvMkdir (name it1)) w)) as Hc.
  destruct (checkObject ob (it1, emit (EvMkdir (name it1)) w)) as [u [it2 w2]].
  cbn [fst snd] in *.
  pose proof (truncateToCurrentSize_frame (it2, w2)) as Ht.
  destruct (truncateToCurrentSize (it2, w2)) as [err [it3 w3]]. cbn [fst snd] in *.
  destruct Hc as [Ho2 Hf2], Ht as [Ho3 Hf3].
  assert (Ho : opens it3 = add64 (opens it) 1) by congruence.
  assert (Hf : fd it3 = fd it) by congruence.
  destruct err as [e|].
  { subst res. cbn [fst snd ret]. split; [exact Ho|].
    split; [left; exact Hf|discriminate]. }
  rewrite !bind_run in E. cbn [item fst snd] in E.
  destruct (opens it3 =? 1) eqn:E1; cbn [negb] in E.
  2:{ subst res. cbn [fst snd ret]. split; [exact Ho|]. split; [left; exact Hf|].
      intros _ H1. apply Z.eqb_neq in E1. congruence. }
  apply Z.eqb_eq in E1.
  destruct (fd it3) as [f3|] eqn:E2; cbn [isNil negb] in E.
  { subst res. cbn [fst snd ret]. split; [exact Ho|]. split; [left; congruence|discriminate]. }
  rewrite !bind_run in E. cbn [sys fst snd] in E. rewrite Hp1 in E.
  destruct (file_OpenFile (toOSPath (c it) (name it)) false w3) as [[f|e] w4] eqn:E3.
  2:{ subst res. cbn [fst snd ret]. split; [exact Ho|]. split; [left; congruence|discriminate]. }
  apply file_OpenFile_handle in E3. subst f.
  cbn [fst snd] in E. rewrite !bind_run in E. cbn [sys update fst snd] in E.
  destruct (file_SetSparse (toOSPath (c it) (name it)) w4) as [e5 w5].
  cbn [fst snd] in E.
  set (it6 := set_fd _ it3) in E.
  pose proof (_save_item (it6, w5)) as Hs.
  destruct (_save (it6, w5)) as [e7 [it7 w7]]. cbn [fst snd] in *. subst it7.
  assert (Hfin : opens it6 = add64 (opens it) 1
                 /\ (fd it6 = fd it
                     \/ add64 (opens it) 1 = 1 /\ fd it = None
                        /\ fd it6 = Some (toOSPath (c it) (name it)))
                 /\ (add64 (opens it) 1 = 1 ->
                     fd it = None /\ fd it6 = Some (toOSPath (c it) (name it)))).
  { split; [exact Ho|]. assert (fd it = None) by congruence.
    assert (add64 (opens it) 1 = 1) by congruence.
    split; [right|]; auto. }
  destruct Hfin as (F1 & F2 & F3).
  destruct e7 as [e|].
  { subst res. cbn [fst snd ret]. split; [exact F1|]. split; [exact F2|discriminate]. }
  rewrite !bind_run in E. cbn [sys fst snd] in E.
  destruct (cache_put (name it3) RegSelf w7) as [old w8]. cbn [fst snd] in E.
  destruct old as [[|k]|].
  - subst res. cbn [fst snd ret]. split; [exact F1|]. split; [exact F2|intros _; exact F3].
  - destruct (negb (k =? 0)).
    + rewrite !bind_run in E. cbn [sys fst snd ret] in E.
      destruct (cache_put (name it3) (RegOther k) w8) as [old' w9]. cbn [fst snd] in E.
      subst res. cbn [fst snd]. split; [exact F1|]. split; [exact F2|discriminate].
    + subst res. cbn [fst snd ret]. split; [exact F1|]. split; [exact F2|intros _; exact F3].
  - subst res. cbn [fst snd ret]. split; [exact F1|]. split; [exact F2|intros _; exact F3].
Qed.

(** Every call of Open raises the count of opens by one, whether it
    succeeds or fails: a failed Open is not rolled back. *)
Theorem Open_counts_every_call (ob : option fs.Object) (st : St) :
  opens (fst (snd (Open ob st))) = add64 (opens (fst st)) 1.
Proof. apply Open_shape. Qed.

(** An Open that succeeds and brings the count to 1 found the item without
    a handle and leaves it holding the handle of its backing path; with a
    handle still set the first Open cannot succeed. *)
Theorem Open_first_sets_handle (ob : option fs.Object) (st : St) :
  fst (Open ob st) = None -> add64 (opens (fst st)) 1 = 1 ->
  fd (fst st) = None
  /\ fd (fst (snd (Open ob st))) = Some (toOSPath (c (fst st)) (name (fst st))).
Proof. apply Open_shape. Qed.

Lemma Open_first_sets_handle_witness :
  fd (fst Scenario.stale) = None
  /\ fd (fst (snd (Open (Some Scenario.remote2) Scenario.stale))) = Some "vfs/a.txt".
Proof.
  apply (Open_first_sets_handle (Some Scenario.remote2) Scenario.stale);
    vm_compute; reflexivity.
Defined.

(** An Open that does not bring the count to 1 never touches the handle. *)
Theorem Open_nested_keeps_handle (ob : option fs.Object) (st : St) :
  add64 (opens (fst st)) 1 <> 1 ->
  fd (fst (snd (Open ob st))) = fd (fst st).
Proof.
  intros H. destruct (Open_shape ob st) as (_ & [Hf|(H1 & _)] & _); [exact Hf|contradiction].
Qed.

Lemma Open_nested_keeps_handle_witness :
  fd (fst (snd (Open None (Scenario.opened 4)))) = fd (fst (Scenario.opened 4)).
Proof.
  apply (Open_nested_keeps_handle None (Scenario.opened 4)). vm_compute. discriminate.
Defined.

(** *** Close *)

(** The count, the dirty flag and the remote object after the locked part
    of Close, on every path. *)
Lemma Close_locked_shape st :
  opens (fst (snd (Close_locked st))) = sub64 (opens (fst st)) 1
  /\ (changed (fst st) = false ->
      changed (fst (snd (Close_locked st))) = false
      /\ o (fst (snd (Close_locked st))) = o (fst st))
  /\ (fst (fst (Close_locked st)) = None -> sub64 (opens (fst st)) 1 = 0 ->
      changed (fst (snd (Close_locked st))) = false).
Proof.
  destruct st as [it w]. cbn [fst snd].
  remember (Close_locked (it, w)) as res eqn:E. unfold Close_locked in E.
  rewrite !bind_run in E. cbn [time_Now update item fst snd] in E.
  set (it1 := set_opens _ _) in E.
  assert (Ho1 : opens it1 = sub64 (opens it) 1) by reflexivity.
  assert (Hc1 : changed it1 = changed it) by reflexivity.
  assert (Hr1 : o it1 = o it) by reflexivity.
  destruct (opens it1 <? 0) eqn:Hneg.
  { subst res. cbn [fst snd ret]. split; [exact Ho1|]. split; [auto|discriminate]. }
  destruct (opens it1 >? 0) eqn:Hpos.
  { subst res. cbn [fst snd ret]. split; [exact Ho1|]. split; [auto|].
    intros _ H0. rewrite Z.gtb_ltb in Hpos. apply Z.ltb_lt in Hpos. lia. }
  rewrite bind_run, (_getSize_state (it1, w)) in E.
  set (r := fst (_getSize (it1, w))) in E.
  rewrite bind_run in E.
  set (st2 := snd ((if isNil (snd r) then update (set_Size (fst r)) else ret tt) (it1, w))) in E.
  assert (Hst2 : exists sz w2, st2 = (set_Size sz it1, w2)).
  { subst st2. destruct (isNil (snd r)); cbn; [exists (fst r)|exists (Size it1)];
      eexists; reflexivity. }
  destruct Hst2 as (sz & w2 & Hst2). rewrite Hst2 in E. clear st2 Hst2.
  set (it2 := set_Size sz it1) in E.
  rewrite bind_run in E.
  pose proof (_save_item (it2, w2)) as Hsave.
  destruct (_save (it2, w2)) as [e [it3 w3]]. cbn [fst snd] in *. subst it3.
  destruct e as [e|].
  { subst res. cbn [fst snd ret]. split; [exact Ho1|]. split; [auto|discriminate]. }
  rewrite !bind_run in E. cbn [item update fst snd] in E.
  destruct (fd it2) as [f|] eqn:Hfd.
  2:{ subst res. cbn [fst snd ret]. split; [exact Ho1|]. split; [auto|discriminate]. }
  rewrite !bind_run in E. cbn [item world update fst snd] in E.
  rewrite _present_state in E.
  set (it4 := set_fd None (set_downloader None it2)) in E.
  set (pres := fst (_present (it4, w3))) in E.
  set (st5 := snd ((if negb (changed it4) && pres
                    then match o it4 with
                         | Some obj => _setModTime (fs.ModTime obj)
                         | None => ret tt
                         end
                    else ret tt) (it4, w3))) in E.
  assert (Hst5 : exists w5, st5 = (it4, w5)).
  { subst st5. destruct (negb (changed it4) && pres); [|eexists; reflexivity].
    destruct (o it4) as [obj|]; [|eexists; reflexivity].
    pose proof (_setModTime_item (fs.ModTime obj) (it4, w3)) as H.
    destruct (_setModTime _ _) as [u [i5 w5]]. cbn in H. subst. eexists; reflexivity. }
  destruct Hst5 as [w5 Hst5]. rewrite Hst5 in E. clear st5 Hst5.
  assert (Hc4 : changed it4 = changed it) by reflexivity.
  destruct (changed it4) eqn:Hch.
  - rewrite bind_run in E.
    pose proof (_store_frame (it4, w5)) as [Ho Hf].
    destruct (_store (it4, w5)) as [e [it6 w6]]. cbn [fst snd] in *.
    destruct e as [e|].
    + subst res. cbn [fst snd ret].
      split; [transitivity (opens it4); [exact Ho|exact Ho1]|].
      split; [congruence|discriminate].
    + rewrite !bind_run in E. cbn [update fst snd ret] in E.
      subst res. cbn [fst snd].
      split; [transitivity (opens it4); [exact Ho|exact Ho1]|].
      split; [congruence|reflexivity].
  - subst res. cbn [fst snd ret]. split; [exact Ho1|]. split; [|intros; exact Hch].
    intros _. split; [exact Hch|reflexivity].
Qed.

(** Every call of Close lowers the count of opens by one, whether it
    succeeds or fails. *)
Theorem Close_counts_every_call (storeFn : option StoreFn) (st : St) :
  opens (fst (snd (Close storeFn st))) = sub64 (opens (fst st)) 1.
Proof.
  rewrite (proj1 (Close_item storeFn st)). apply Close_locked_shape.
Qed.

(** Close uploads only what is dirty: for an item that has not been
    changed, the remote object is the same afterwards and the item is
    still clean, on every path. *)
Theorem Close_clean_keeps_object (storeFn : option StoreFn) (st : St) :
  changed (fst st) = false ->
  changed (fst (snd (Close storeFn st))) = false
  /\ o (fst (snd (Close storeFn st))) = o (fst st).
Proof.
  intros H. rewrite (proj1 (Close_item storeFn st)). apply Close_locked_shape. exact H.
Qed.

Lemma Close_clean_keeps_object_witness :
  changed (fst (snd (Close None (Scenario.opened 4)))) = false
  /\ o (fst (snd (Close None (Scenario.opened 4)))) = o (fst (Scenario.opened 4)).
Proof. apply (Close_clean_keeps_object None (Scenario.opened 4)). reflexivity. Defined.

(** A last Close that returns no error leaves the item clean: whatever
    was dirty has been uploaded. *)
Theorem Close_success_clears_dirty (storeFn : option StoreFn) (st : St) :
  fst (Close storeFn st) = None -> sub64 (opens (fst st)) 1 = 0 ->
  changed (fst (snd (Close storeFn st))) = false.
Proof.
  intros H H0. destruct (Close_item storeFn st) as [Hit Herr].
  rewrite Hit. apply Close_locked_shape; auto.
Qed.

Lemma Close_success_clears_dirty_witness :
  changed (fst (snd (Close None Scenario.dirty_partial))) = false.
Proof.
  apply (Close_success_clears_dirty None Scenario.dirty_partial); vm_compute; reflexivity.
Defined.

(** An Open of a closed item followed by a Close, both without error,
    leaves the item closed again: no opens, no handle, not dirty. *)
Theorem Open_then_Close (ob : option fs.Object) (storeFn : option StoreFn) (st : St) :
  opens (fst st) = 0 ->
  fst (Open ob st) = None ->
  fst (Close storeFn (snd (Open ob st))) = None ->
  opens (fst (snd (Close storeFn (snd (Open ob st))))) = 0
  /\ fd (fst (snd (Close storeFn (snd (Open ob st))))) = None
  /\ changed (fst (snd (Close storeFn (snd (Open ob st))))) = false.
Proof.
  intros H0 HO HC.
  set (st1 := snd (Open ob st)) in *.
  assert (H1 : opens (fst st1) = 1).
  { unfold st1. rewrite (proj1 (Open_shape ob st)), H0. reflexivity. }
  destruct (Close_item storeFn st1) as [Hit Herr]. specialize (Herr HC).
  rewrite Hit.
  destruct (Close_locked_shape st1) as (Ho & _ & Hc).
  assert (Hz : sub64 (opens (fst st1)) 1 = 0) by (rewrite H1; reflexivity).
  split; [congruence|]. split; [|auto].
  destruct (Close_locked_ok st1 Herr) as [(Hpos & _)|(_ & Hfd & _)]; [|exact Hfd].
  rewrite Ho, Hz in Hpos. lia.
Qed.

Lemma Open_then_Close_witness :
  let st2 := snd (Close None (snd (Open (Some Scenario.remote2) Scenario.stale))) in
  opens (fst st2) = 0 /\ fd (fst st2) = None /\ changed (fst st2) = false.
Proof.
  apply (Open_then_Close (Some Scenario.remote2) None Scenario.stale);
    vm_compute; reflexivity.
Defined.

(** *** ReadAt and WriteAt on an open item *)

(** A ReadAt whose range, cut at the end of the item, is present is served
    from the backing file alone: the result is the file's, and neither
    the item nor the world changes (no downloader is created). *)
Theorem ReadAt_present (len off : Z) (st : St) (f : os_File) :
  fd (fst st) = Some f ->
  ranges.Present (Rs (fst st))
    {| ranges.Pos := off; ranges.Size := _ensure_size (fst st) off len |} = true ->
  ReadAt len off st = (fd_ReadAt (snd st) f len off, st).
Proof.
  intros Hfd Hp. unfold ReadAt. rewrite bind_run. cbn [item fst snd]. rewrite Hfd.
  rewrite bind_run, (_ensure_present _ _ _ Hp). cbn [fst snd].
  rewrite !bind_run. cbn [item world fst snd]. rewrite Hfd. destruct st; reflexivity.
Qed.

Lemma ReadAt_present_witness :
  ReadAt 2 1 (Scenario.opened 4)
  = (fd_ReadAt (snd (Scenario.opened 4)) "vfs/a.txt" 2 1, Scenario.opened 4).
Proof. apply (ReadAt_present 2 1 (Scenario.opened 4) "vfs/a.txt"); reflexivity. Defined.

(** A ReadAt of a range that is not present, on an item without a remote
    object, fails with the tried-to-download-nil-object error, n = 0, and
    changes nothing. *)
Theorem ReadAt_missing_without_remote (len off : Z) (st : St) (f : os_File) :
  fd (fst st) = Some f ->
  ranges.Present (Rs (fst st))
    {| ranges.Pos := off; ranges.Size := _ensure_size (fst st) off len |} = false ->
  o (fst st) = None ->
  ReadAt len off st
  = (([], 0,
      Some (Wrap (New "vfs cache: internal error: tried to download nil object")
              "Ensure: failed to start downloader")), st).
Proof.
  destruct st as [it w]. cbn [fst snd]. intros Hfd Hp Ho.
  unfold ReadAt. rewrite bind_run. cbn [item fst snd]. rewrite Hfd.
  rewrite bind_run. unfold _ensure. rewrite bind_run. cbn [item fst snd]. rewrite Hp.
  rewrite bind_run. unfold _newDownloader. rewrite bind_run. cbn [item fst snd].
  rewrite Ho. reflexivity.
Qed.

Lemma ReadAt_missing_without_remote_witness :
  let st := (Scenario.item_of 1 None (Some "vfs/a.txt") 4 [] "",
             Scenario.world_of {[ "vfs/a.txt" := Scenario.zeros 4 ]}) in
  ReadAt 2 1 st
  = (([], 0,
      Some (Wrap (New "vfs cache: internal error: tried to download nil object")
              "Ensure: failed to start downloader")), st).
Proof.
  apply (ReadAt_missing_without_remote 2 1
           (Scenario.item_of 1 None (Some "vfs/a.txt") 4 [] "",
            Scenario.world_of {[ "vfs/a.txt" := Scenario.zeros 4 ]}) "vfs/a.txt");
    reflexivity.
Defined.

Lemma WriteAt_item b off st f old :
  fd (fst st) = Some f -> files (snd st) !! f = Some old ->
  fault (snd st) FdWriteAt f = None -> 0 <= off ->
  fst (WriteAt b off st) = (lenZ b, None)
  /\ fst (snd (WriteAt b off st))
     = (if lenZ b >? 0 then set_changed true else fun it => it)
         (set_Rs (ranges.Insert (Rs (fst st))
                    {| ranges.Pos := off; ranges.Size := add64 off (lenZ b) |}) (fst st)).
Proof.
  destruct st as [it w]. cbn [fst snd]. intros Hfd Hold Hflt Hoff.
  unfold WriteAt. rewrite bind_run. cbn [item fst snd]. rewrite Hfd.
  assert (Hneg : (off <? 0) = false) by (apply Z.ltb_ge; lia).
  assert (Hsys : sys (fd_WriteAt f b off) (it, w)
                 = ((lenZ b, None), (it, set_files (<[f := splice off b old]> (files w)) w))).
  { unfold sys, fd_WriteAt, failed. cbn [fst snd]. rewrite Hold, Hflt, Hneg. reflexivity. }
  rewrite bind_run, Hsys. cbn [fst snd]. rewrite !bind_run.
  set (st1 := (it, set_files (<[f := splice off b old]> (files w)) w)).
  pose proof (_written_item off (lenZ b) st1) as Hw.
  destruct (_written off (lenZ b) st1) as [u [it2 w2]]. cbn [fst snd] in *. subst it2.
  destruct (lenZ b >? 0); cbn; split; reflexivity.
Qed.

(** A WriteAt that the file accepts returns the length of the buffer;
    afterwards every byte written is present and every byte present
    before still is, the item is dirty when the buffer was not empty, and
    the size, the count of opens, the handle and the remote object are as
    before. *)
Theorem WriteAt_marks_written (b : list byte) (off : Z) (st : St) (f : os_File)
    (old : list byte) :
  fd (fst st) = Some f -> files (snd st) !! f = Some old ->
  fault (snd st) FdWriteAt f = None -> 0 <= off -> off + lenZ b < 2 ^ 63 ->
  fst (WriteAt b off st) = (lenZ b, None)
  /\ (forall x, off <= x < off + lenZ b ->
        ranges.covers (Rs (fst (snd (WriteAt b off st)))) x = true)
  /\ (forall x, ranges.covers (Rs (fst st)) x = true ->
        ranges.covers (Rs (fst (snd (WriteAt b off st)))) x = true)
  /\ changed (fst (snd (WriteAt b off st)))
     = (if lenZ b >? 0 then true else changed (fst st))
  /\ Size (fst (snd (WriteAt b off st))) = Size (fst st)
  /\ opens (fst (snd (WriteAt b off st))) = opens (fst st)
  /\ fd (fst (snd (WriteAt b off st))) = fd (fst st)
  /\ o (fst (snd (WriteAt b off st))) = o (fst st).
Proof.
  intros Hfd Hold Hflt Hoff Hsum.
  destruct (WriteAt_item b off st f old Hfd Hold Hflt Hoff) as [Hn Hit].
  split; [exact Hn|]. rewrite Hit.
  assert (Hlen : 0 <= lenZ b) by (unfold lenZ; lia).
  assert (Hrs : forall x,
            ranges.covers
              (Rs ((if lenZ b >? 0 then set_changed true else fun it => it)
                     (set_Rs (ranges.Insert (Rs (fst st))
                                {| ranges.Pos := off;
                                   ranges.Size := add64 off (lenZ b) |}) (fst st)))) x
            = ((off <=? x) && (x <? off + (off + lenZ b))) || ranges.covers (Rs (fst st)) x).
  { intros x. destruct (lenZ b >? 0); cbn [Rs set_changed set_Rs];
      rewrite Insert_covers; unfold ranges.contains, ranges.End, add64;
      cbn [ranges.Pos ranges.Size]; rewrite int64_id by (unfold in_int64; lia);
      reflexivity. }
  split; [|split].
  - intros x Hx. rewrite Hrs. apply orb_true_iff. left.
    apply andb_true_iff. rewrite Z.leb_le, Z.ltb_lt. lia.
  - intros x Hx. rewrite Hrs, Hx. apply orb_true_r.
  - destruct (lenZ b >? 0); cbn; auto.
Qed.

Lemma WriteAt_marks_written_witness :
  let res := WriteAt [x01; x02; x03] 5 (Scenario.opened 4) in
  fst res = (3, None)
  /\ ranges.covers (Rs (fst (snd res))) 7 = true
  /\ changed (fst (snd res)) = true
  /\ Size (fst (snd res)) = 4.
Proof.
  destruct (WriteAt_marks_written [x01; x02; x03] 5 (Scenario.opened 4) "vfs/a.txt"
              (Scenario.zeros 4) eq_refl eq_refl eq_refl ltac:(lia) ltac:(reflexivity))
    as (H1 & H2 & _ & H4 & H5 & _).
  split; [exact H1|]. split; [apply H2; vm_compute; split; [discriminate|reflexivity]|].
  split; [exact H4|exact H5].
Defined.

(** *** Metadata: _save, load and _written *)

Lemma _save_world st :
  exists fsys,
    snd (snd (_save st)) = set_files fsys (snd st)
    /\ (forall p, p <> toOSPathMeta (c (fst st)) (name (fst st)) ->
                  fsys !! p = files (snd st) !! p)
    /\ (fst (_save st) = None ->
        fsys !! toOSPathMeta (c (fst st)) (name (fst st))
        = Some (json_Encode (snd st) (meta_of (fst st)))
        /\ fault (snd st) FdClose (toOSPathMeta (c (fst st)) (name (fst st))) = None).
Proof.
  destruct st as [it w]. cbn [fst snd]. unfold _save. go.
  unfold os_Create, failed.
  destruct (fault w OsCreate _); cbn.
  { exists (files w). split; [destruct w; reflexivity|]. split; [auto|discriminate]. }
  destruct (fault w JsonEncode _); cbn.
  { eexists. split; [reflexivity|]. split.
    - intros p Hp. apply lookup_insert_ne. congruence.
    - unfold fs_CheckClose, fd_Close, failed. cbn.
      destruct (fault w FdClose _); discriminate. }
  eexists. split; [reflexivity|]. split.
  - intros p Hp. rewrite !lookup_insert_ne by congruence. reflexivity.
  - unfold fs_CheckClose, fd_Close, failed. cbn.
    destruct (fault w FdClose _); [discriminate|]. intros _.
    split; [apply lookup_insert_eq|reflexivity].
Qed.

(** _save writes the metadata file and nothing else: the item and every
    other file are as before, whether it succeeds or fails. *)
Theorem _save_touches_only_metadata (st : St) (p : string) :
  p <> toOSPathMeta (c (fst st)) (name (fst st)) ->
  fst (snd (_save st)) = fst st
  /\ files (snd (snd (_save st))) !! p = files (snd st) !! p.
Proof.
  intros Hp. split; [apply _save_item|].
  destruct (_save_world st) as (fsys & -> & Hf & _). cbn. apply Hf. exact Hp.
Qed.

Lemma _save_touches_only_metadata_witness :
  fst (snd (_save (Scenario.opened 4))) = fst (Scenario.opened 4)
  /\ files (snd (snd (_save (Scenario.opened 4)))) !! "vfs/a.txt"
     = files (snd (Scenario.opened 4)) !! "vfs/a.txt".
Proof.
  apply (_save_touches_only_metadata (Scenario.opened 4) "vfs/a.txt").
  vm_compute. discriminate.
Defined.

Lemma decoded_meta_of it : decoded (meta_of it) it = it.
Proof. destruct it. reflexivity. Qed.

(** Round trip: when encoding/json decodes what it encoded, a load of
    the same name after a successful _save finds the metadata and reports
    no error, into whatever item it is loaded: the access time, size,
    present ranges and fingerprint of that item become those of the item
    that was saved, and its other fields stay its own.  Loaded back into
    the saved item itself, it leaves it exactly as it was. *)
Theorem save_then_load (st : St) (it' : Item) :
  fst (_save st) = None ->
  json_Decode (snd st) (json_Encode (snd st) (meta_of (fst st))) = Some (meta_of (fst st)) ->
  fault (snd st) OsOpen (toOSPathMeta (c (fst st)) (name (fst st))) = None ->
  toOSPathMeta (c it') (name it') = toOSPathMeta (c (fst st)) (name (fst st)) ->
  load (it', snd (snd (_save st)))
  = ((true, None),
     (set_ATime (ATime (fst st))
        (set_Size (Size (fst st))
           (set_Rs (Rs (fst st)) (set_Fingerprint (Fingerprint (fst st)) it'))),
      snd (snd (_save st))))
  /\ load (snd (_save st)) = ((true, None), snd (_save st)).
Proof.
  intros Hok Hrt Hop Hp.
  assert (Hload : forall it2,
             toOSPathMeta (c it2) (name it2) = toOSPathMeta (c (fst st)) (name (fst st)) ->
             load (it2, snd (snd (_save st)))
             = ((true, None), (decoded (meta_of (fst st)) it2, snd (snd (_save st))))).
  { intros it2 Hp2.
    destruct (_save_world st) as (fsys & Hw & _ & Hm). destruct (Hm Hok) as [Hfile Hcl].
    rewrite Hw. destruct st as [it w]. cbn [fst snd] in *.
    unfold load. rewrite !bind_run. cbn [item world fst snd].
    rewrite Hp2. unfold os_Open, failed. cbn [files fault set_files json_Decode].
    rewrite Hfile, Hop, Hrt.
    rewrite !bind_run. cbn [update ret fst snd].
    unfold fs_CheckClose, fd_Close, failed. cbn [fault set_files]. rewrite Hcl.
    reflexivity. }
  split.
  - rewrite (Hload it' Hp). reflexivity.
  - pose proof (_save_item st) as Hi.
    specialize (Hload (fst st) eq_refl).
    destruct (_save st) as [e [it1 w1]]. cbn [fst snd] in *. subst it1.
    rewrite Hload, decoded_meta_of. reflexivity.
Qed.

Lemma save_then_load_witness :
  let w' := snd (snd (_save Scenario.saved)) in
  files w' !! "vfsMeta/a.txt" = Some (Scenario.encode (meta_of (fst Scenario.saved)))
  /\ load (Scenario.fresh, w')
     = ((true, None),
        ({| c := Scenario.cache; name := "a.txt"; opens := 0; downloader := None;
            o := None; fd := None; changed := false; ATime := 5; Size := 7;
            Rs := [{| ranges.Pos := 0; ranges.Size := 3 |};
                   {| ranges.Pos := 5; ranges.Size := 2 |}];
            Fingerprint := "F2" |}, w'))
  /\ load (snd (_save Scenario.saved)) = ((true, None), snd (_save Scenario.saved)).
Proof.
  split; [vm_compute; reflexivity|].
  apply (save_then_load Scenario.saved Scenario.fresh); vm_compute; reflexivity.
Defined.

(** _written changes nothing of the item but the present ranges, to which
    it adds the range it inserts; it never drops a present byte, and of
    the world it changes only the metadata file. *)
Theorem _written_grows (offset size : Z) (st : St) :
  fst (snd (_written offset size st))
  = set_Rs (ranges.Insert (Rs (fst st))
              {| ranges.Pos := offset; ranges.Size := add64 offset size |}) (fst st)
  /\ (forall x, ranges.covers (Rs (fst st)) x = true ->
                ranges.covers (Rs (fst (snd (_written offset size st)))) x = true)
  /\ (exists fsys, snd (snd (_written offset size st)) = set_files fsys (snd st))
  /\ (forall p, p <> toOSPathMeta (c (fst st)) (name (fst st)) ->
                files (snd (snd (_written offset size st))) !! p = files (snd st) !! p).
Proof.
  split; [apply _written_item|]. split; [|split].
  - intros x Hx. rewrite _written_item. cbn [Rs set_Rs].
    rewrite Insert_covers, Hx. apply orb_true_r.
  - destruct st as [it w]. unfold _written. rewrite !bind_run. cbn [update ret fst snd].
    set (it1 := set_Rs _ it).
    destruct (_save_world (it1, w)) as (fsys & -> & _). exists fsys. reflexivity.
  - intros p Hp. destruct st as [it w]. unfold _written. rewrite !bind_run.
    cbn [update ret fst snd].
    set (it1 := set_Rs _ it).
    destruct (_save_world (it1, w)) as (fsys & -> & Hf & _). cbn. apply Hf. exact Hp.
Qed.

Lemma _written_grows_witness :
  let st := (Scenario.item_of 1 None (Some "vfs/a.txt") 4 [] "",
             Scenario.world_of {[ "vfs/a.txt" := Scenario.zeros 4 ]}) in
  fst (snd (_written 1 2 st))
  = Scenario.item_of 1 None (Some "vfs/a.txt") 4 [{| ranges.Pos := 1; ranges.Size := 3 |}] ""
  /\ files (snd (snd (_written 1 2 st))) !! "vfs/a.txt" = Some (Scenario.zeros 4)
  /\ ranges.covers (Rs (fst (snd (_written 6 2 (Scenario.opened 4))))) 1 = true.
Proof.
  split; [|split].
  - rewrite (proj1 (_written_grows 1 2 _)). vm_compute. reflexivity.
  - rewrite (proj2 (proj2 (proj2 (_written_grows 1 2 _))) "vfs/a.txt"); [reflexivity|].
    vm_compute. discriminate.
  - apply (proj1 (proj2 (_written_grows 6 2 (Scenario.opened 4))) 1). reflexivity.
Defined.

(** *** rename *)

(** rename retargets the item before it moves any file: the new name and
    remote object are set and the downloader is detached on every path,
    also when moving a file fails. *)
Theorem rename_retargets_first (n n' : string) (ob : option fs.Object) (st : St) :
  fst (snd (rename n n' ob st))
  = set_o ob (set_name n' (set_downloader None (fst st))).
Proof.
  destruct st as [it w]. unfold rename, downloader_close. go.
  destruct (rename_file (toOSPath _ n) _ w) as [[e|] w1]; simpl.
  - destruct (downloader it); reflexivity.
  - destruct (rename_file (toOSPathMeta _ n) _ w1) as [e2 w2]; simpl.
    destruct (downloader it); reflexivity.
Qed.

(** *** newItem *)

(** newItem never leaves a backing file without metadata or metadata
    without a backing file: unless the system refuses a removal, after
    newItem either both files are on disk or neither is. *)
Theorem newItem_pairs_files (cc : Cache) (n : string) (w : World) :
  fault w OsRemove (toOSPath cc n) = None ->
  fault w OsRemove (toOSPathMeta cc n) = None ->
  (files (snd (newItem cc n w)) !! toOSPath cc n = None
   <-> files (snd (newItem cc n w)) !! toOSPathMeta cc n = None).
Proof.
  intros F1 F2.
  unfold newItem, load, _remove, clean, _removeFile, _removeMeta, os_Stat, os_Open,
    os_Remove, fs_CheckClose, fd_Close, failed.
  go. rewrite ?F1, ?F2.
  repeat (case_match; simplify_eq/=; rewrite ?F1, ?F2 in * ); go.
  all: destruct (decide (toOSPath cc n = toOSPathMeta cc n)) as [Heq|Hne];
    [rewrite ?Heq in *|];
    repeat (rewrite ?lookup_delete_eq in *; rewrite ?lookup_delete_ne in * by congruence);
    simplify_eq; try (split; intros; congruence).
Qed.

Lemma newItem_pairs_files_witness :
  files (snd (newItem Scenario.cache "a.txt"
                (Scenario.world_of {[ "vfs/a.txt" := Scenario.zeros 3 ]}))) !! "vfs/a.txt" = None
  <-> files (snd (newItem Scenario.cache "a.txt"
                    (Scenario.world_of {[ "vfs/a.txt" := Scenario.zeros 3 ]})))
        !! "vfsMeta/a.txt" = None.
Proof.
  apply (newItem_pairs_files Scenario.cache "a.txt"
           (Scenario.world_of {[ "vfs/a.txt" := Scenario.zeros 3 ]})); reflexivity.
Defined.

(** With neither file on disk newItem returns the zero item, stamped
    with the current time, and leaves the world as it is. *)
Theorem newItem_fresh (cc : Cache) (n : string) (w : World) :
  files w !! toOSPath cc n = None -> files w !! toOSPathMeta cc n = None ->
  newItem cc n w
  = ({| c := cc; name := n; opens := 0; downloader := None; o := None; fd := None;
        changed := false; ATime := clock w; Size := 0; Rs := []; Fingerprint := "" |}, w).
Proof.
  intros H1 H2.
  unfold newItem, load, _removeFile, _removeMeta, os_Stat, os_Open, os_Remove.
  go. repeat (cbn; rewrite ?H1, ?H2). reflexivity.
Qed.

Lemma newItem_fresh_witness :
  newItem Scenario.cache "a.txt" (Scenario.world_of ∅)
  = ({| c := Scenario.cache; name := "a.txt"; opens := 0; downloader := None; o := None;
        fd := None; changed := false; ATime := 100; Size := 0; Rs := []; Fingerprint := "" |},
     Scenario.world_of ∅).
Proof. apply (newItem_fresh Scenario.cache "a.txt" (Scenario.world_of ∅)); reflexivity. Defined.



(** *** GetSize with a backing file *)

(** With the backing file on disk (and no handle open) GetSize answers
    the file's length whatever remote object the item holds, Exists is
    true, and nothing changes. *)
Theorem GetSize_with_backing_file (st : St) (b : list byte) :
  fd (fst st) = None ->
  files (snd st) !! toOSPath (c (fst st)) (name (fst st)) = Some b ->
  fault (snd st) OsStat (toOSPath (c (fst st)) (name (fst st))) = None ->
  GetSize st = ((lenZ b, None), st) /\ Exists st = (true, st).
Proof.
  destruct st as [it w]. cbn [fst snd]. intros Hfd Hb Hs.
  unfold Exists, GetSize, _getSize, os_Stat, failed. go.
  rewrite Hfd, Hb, Hs. split; reflexivity.
Qed.

Lemma GetSize_with_backing_file_witness :
  let st := (Scenario.item_of 0 (Some Scenario.remote2) None 7 [] "F2",
             Scenario.world_of {[ "vfs/a.txt" := Scenario.zeros 4 ]}) in
  GetSize st = ((4, None), st) /\ Exists st = (true, st).
Proof.
  apply (GetSize_with_backing_file
           (Scenario.item_of 0 (Some Scenario.remote2) None 7 [] "F2",
            Scenario.world_of {[ "vfs/a.txt" := Scenario.zeros 4 ]}) (Scenario.zeros 4));
    reflexivity.
Defined.

(** *** setModTime *)

(** setModTime refreshes the cached fingerprint from the item's remote
    object, so that a later reconciliation against that same object keeps
    the cache: the ranges stay and no file is touched. *)
Theorem setModTime_then_checkObject (t : Z) (obj : fs.Object) (st : St) :
  o (fst st) = Some obj ->
  Fingerprint (fst (snd (setModTime t st))) = objectFingerprint (c (fst st)) obj
  /\ Rs (fst (snd (checkObject (Some obj) (snd (setModTime t st))))) = Rs (fst st)
  /\ snd (snd (checkObject (Some obj) (snd (setModTime t st)))) = snd (snd (setModTime t st)).
Proof.
  intros Ho.
  assert (Hi : fst (snd (setModTime t st))
               = set_Fingerprint (objectFingerprint (c (fst st)) obj) (fst st)).
  { destruct st as [it w]. cbn [fst snd] in *. unfold setModTime, _updateFingerprint.
    rewrite !bind_run. cbn [item fst snd]. rewrite Ho. cbn [update fst snd].
    rewrite _setModTime_item. reflexivity. }
  split; [rewrite Hi; reflexivity|].
  destruct (checkObject_match obj (snd (setModTime t st))) as (Hw & Hr & _).
  { right. rewrite Hi. reflexivity. }
  split; [rewrite Hr, Hi; reflexivity|exact Hw].
Qed.

Lemma setModTime_then_checkObject_witness :
  let st := (Scenario.item_of 1 (Some Scenario.remote2) (Some "vfs/a.txt") 7
               (Scenario.whole 7) "F1",
             Scenario.world_of {[ "vfs/a.txt" := Scenario.zeros 7 ]}) in
  Fingerprint (fst (snd (setModTime 2 st))) = "F2"
  /\ Rs (fst (snd (checkObject (Some Scenario.remote2) (snd (setModTime 2 st))))) = Rs (fst st)
  /\ snd (snd (checkObject (Some Scenario.remote2) (snd (setModTime 2 st))))
     = snd (snd (setModTime 2 st)).
Proof.
  apply (setModTime_then_checkObject 2 Scenario.remote2
           (Scenario.item_of 1 (Some Scenario.remote2) (Some "vfs/a.txt") 7
              (Scenario.whole 7) "F1",
            Scenario.world_of {[ "vfs/a.txt" := Scenario.zeros 7 ]})).
  reflexivity.
Defined.

(** *** The backing file after Truncate and Open *)

Lemma resize_length n b : 0 <= n -> lenZ (resize n b) = n.
Proof.
  intros Hn. unfold lenZ, resize.
  rewrite length_app, length_take, length_replicate. lia.
Qed.

Lemma fd_Truncate_ok f size w w' :
  0 <= size -> fd_Truncate f size w = (None, w') ->
  exists b, files w' !! f = Some b /\ lenZ b = size.
Proof.
  intros Hs. unfold fd_Truncate.
  destruct (files w !! f) as [b|]; [|discriminate].
  destruct (failed w FdTruncate f); [discriminate|]. intros [= <-]. cbn.
  eexists. split; [apply lookup_insert_eq|apply resize_length; exact Hs].
Qed.

Lemma truncate_file size st :
  0 <= size -> fst (truncate size st) = None ->
  exists b, files (snd (snd (truncate size st))) !! backing_path (fst st) = Some b
            /\ lenZ b = size.
Proof.
  destruct st as [it w]. cbn [fst snd]. intros Hs.
  unfold truncate, backing_path.
  assert (Hneg : (size <? 0) = false) by (apply Z.ltb_ge; lia). rewrite Hneg.
  rewrite bind_run. cbn [item fst snd].
  destruct (fd it) as [f|].
  - unfold bind, sys. cbn [fst snd].
    destruct (fd_Truncate f size w) as [[e|] w1] eqn:Et; [discriminate|].
    intros _. cbn. eapply fd_Truncate_ok; eassumption.
  - unfold bind, sys. cbn [fst snd].
    destruct (file_OpenFile (toOSPath (c it) (name it)) true w) as [[f|e] w1] eqn:Eo;
      [|discriminate].
    apply file_OpenFile_handle in Eo. subst f. cbn [fst snd].
    destruct (file_SetSparse (toOSPath (c it) (name it)) w1) as [e2 w2]. cbn [fst snd].
    destruct (fd_Truncate (toOSPath (c it) (name it)) size w2) as [[e|] w3] eqn:Et.
    + cbn. unfold fs_CheckClose. destruct (fd_Close w3 _); discriminate.
    + intros _. cbn. eapply fd_Truncate_ok; eassumption.
Qed.

Lemma _written_files offset size st p :
  p <> toOSPathMeta (c (fst st)) (name (fst st)) ->
  files (snd (snd (_written offset size st))) !! p = files (snd st) !! p.
Proof.
  intros Hp. destruct st as [it w]. unfold _written. rewrite !bind_run.
  cbn [update ret fst snd].
  set (it1 := set_Rs _ it).
  destruct (_save_world (it1, w)) as (fsys & -> & Hf & _). cbn. apply Hf. exact Hp.
Qed.

Lemma Truncate_files size st p :
  fst (Truncate size st) = None ->
  p <> toOSPathMeta (c (fst st)) (name (fst st)) ->
  files (snd (snd (Truncate size st))) !! p = files (snd (snd (truncate size st))) !! p.
Proof.
  intros Hok Hp. revert Hok. unfold Truncate. rewrite !bind_run.
  unfold GetSize. rewrite (_getSize_state st).
  set (old := match snd (fst (_getSize st)) with
              | Some e => if negb (IsNotExist (CauseOpt (snd (fst (_getSize st)))))
                          then inr (Wrap e "truncate failed to read size") else inl 0
              | None => inl (fst (fst (_getSize st)))
              end).
  destruct old as [oldSize|e]; [|discriminate].
  rewrite !bind_run.
  pose proof (truncate_item size st) as Ht.
  destruct (truncate size st) as [[e1|] [it1 w1]]; [discriminate|].
  cbn [fst snd] in *. subst it1. intros _.
  rewrite !bind_run. cbn [update fst snd].
  destruct (size >? oldSize).
  - rewrite !bind_run. cbn [update ret fst snd].
    apply (_written_files oldSize size (set_Size size (fst st), w1) p). exact Hp.
  - destruct (size <? oldSize); reflexivity.
Qed.

Lemma Truncate_file_ok (size : Z) (st : St) :
  0 <= size -> fst (Truncate size st) = None ->
  backing_path (fst st) <> toOSPathMeta (c (fst st)) (name (fst st)) ->
  Size (fst (snd (Truncate size st))) = size
  /\ exists b, files (snd (snd (Truncate size st))) !! backing_path (fst st) = Some b
               /\ lenZ b = size.
Proof.
  intros Hs Hok Hp. split.
  - rewrite Truncate_item, Hok.
    destruct (size >? current_size st); [reflexivity|].
    destruct (size <? current_size st); reflexivity.
  - rewrite (Truncate_files size st _ Hok Hp).
    apply truncate_file; [exact Hs|].
    revert Hok. unfold Truncate. rewrite !bind_run.
    unfold GetSize. rewrite (_getSize_state st).
    destruct (match snd (fst (_getSize st)) with
              | Some e => if negb (IsNotExist (CauseOpt (snd (fst (_getSize st)))))
                          then inr (Wrap e "truncate failed to read size") else inl 0
              | None => inl (fst (fst (_getSize st)))
              end) as [oldSize|e]; [|discriminate].
    rewrite !bind_run.
    destruct (fst (truncate size st)); [discriminate|reflexivity].
Qed.

(** After a successful Truncate to a non-negative size the backing file
    is on disk with exactly that many bytes, and the item has that size. *)
Theorem Truncate_resizes_file (size : Z) (st : St) :
  0 <= size -> fst (Truncate size st) = None ->
  backing_path (fst st) <> toOSPathMeta (c (fst st)) (name (fst st)) ->
  Size (fst (snd (Truncate size st))) = size
  /\ exists b, files (snd (snd (Truncate size st))) !! backing_path (fst st) = Some b
               /\ lenZ b = size.
Proof. apply Truncate_file_ok. Qed.

Lemma Truncate_resizes_file_witness :
  Size (fst (snd (Truncate 10 (Scenario.opened 4)))) = 10
  /\ exists b, files (snd (snd (Truncate 10 (Scenario.opened 4)))) !! "vfs/a.txt" = Some b
               /\ lenZ b = 10.
Proof.
  apply (Truncate_resizes_file 10 (Scenario.opened 4)).
  - lia.
  - vm_compute. reflexivity.
  - vm_compute. discriminate.
Defined.

Lemma same_file_refl it : same_file it it.
Proof. repeat split. Qed.

Lemma checkObject_same_file ob st : same_file (fst st) (fst (snd (checkObject ob st))).
Proof.
  destruct st as [it w]. unfold checkObject. rewrite !bind_run. cbn [item fst snd].
  destruct ob as [obj|].
  - destruct (negb (String.eqb (Fingerprint it) "")).
    + destruct (negb (String.eqb (objectFingerprint (c it) obj) (Fingerprint it))).
      * rewrite ?bind_run. cbn [update fst snd]. rewrite _remove_item. repeat split.
      * repeat split.
    + repeat split.
  - destruct (negb (String.eqb (Fingerprint it) "")).
    + cbn [update fst snd]. rewrite _remove_item. repeat split.
    + repeat split.
Qed.

Lemma Truncate_same_file size st : same_file (fst st) (fst (snd (Truncate size st))).
Proof.
  rewrite Truncate_item. destruct (fst (Truncate size st)); [apply same_file_refl|].
  destruct (size >? current_size st); [repeat split|].
  destruct (size <? current_size st); repeat split.
Qed.

(** The state after a truncateToCurrentSize without error: untouched
    when the size read is negative, otherwise the backing file is on disk
    with as many bytes as the item's size. *)
Lemma truncateToCurrentSize_file st :
  fst (truncateToCurrentSize st) = None ->
  backing_path (fst st) <> toOSPathMeta (c (fst st)) (name (fst st)) ->
  same_file (fst st) (fst (snd (truncateToCurrentSize st)))
  /\ ((fst (fst (_getSize st)) < 0 /\ snd (truncateToCurrentSize st) = st)
      \/ exists b,
           files (snd (snd (truncateToCurrentSize st))) !! backing_path (fst st) = Some b
           /\ lenZ b = Size (fst (snd (truncateToCurrentSize st)))).
Proof.
  unfold truncateToCurrentSize. rewrite bind_run.
  unfold GetSize. rewrite (_getSize_state st).
  set (sz := fst (fst (_getSize st))).
  intros Hok Hp.
  assert (Hmain : fst ((if sz <? 0 then ret None else Truncate sz) st) = None ->
                  same_file (fst st) (fst (snd ((if sz <? 0 then ret None else Truncate sz) st)))
                  /\ ((sz < 0 /\ snd ((if sz <? 0 then ret None else Truncate sz) st) = st)
                      \/ exists b,
                           files (snd (snd ((if sz <? 0 then ret None else Truncate sz) st)))
                             !! backing_path (fst st) = Some b
                           /\ lenZ b
                              = Size (fst (snd ((if sz <? 0 then ret None else Truncate sz) st))))).
  { destruct (sz <? 0) eqn:E.
    - intros _. split; [apply same_file_refl|]. left. apply Z.ltb_lt in E. auto.
    - intros HT. split; [apply Truncate_same_file|]. right. apply Z.ltb_ge in E.
      destruct (Truncate_file_ok sz st E HT Hp) as (HS & b & Hb & Hl).
      exists b. split; [exact Hb|congruence]. }
  destruct (snd (fst (_getSize st))) as [e|].
  - destruct (negb (IsNotExist (CauseOpt (Some e)))); [discriminate|]. apply Hmain, Hok.
  - apply Hmain, Hok.
Qed.

(** A successful first Open leaves the backing file on disk with as many
    bytes as the item's size. *)
Theorem Open_materialises (ob : option fs.Object) (st : St) :
  fst (Open ob st) = None -> add64 (opens (fst st)) 1 = 1 ->
  toOSPath (c (fst st)) (name (fst st)) <> toOSPathMeta (c (fst st)) (name (fst st)) ->
  exists b,
    files (snd (snd (Open ob st))) !! toOSPath (c (fst st)) (name (fst st)) = Some b
    /\ lenZ b = Size (fst (snd (Open ob st))).
Proof.
  intros Hok H1 Hp.
  destruct (proj2 (proj2 (Open_shape ob st)) Hok H1) as [Hfd0 _].
  destruct st as [it w]. cbn [fst snd] in *.
  remember (Open ob (it, w)) as res eqn:E. unfold Open in E.
  rewrite !bind_run in E. cbn [time_Now update item fst snd] in E.
  set (it1 := set_opens _ _) in E.
  assert (Hf1 : same_file it it1) by (repeat split).
  assert (Hp1 : toOSPath (c it1) (name it1) = toOSPath (c it) (name it)) by reflexivity.
  unfold cache_mkdir, sys in E. cbn [fst snd] in E.
  destruct (failed w CacheMkdir (name it1)); [subst res; discriminate|].
  cbn [fst snd ret] in E. rewrite !bind_run in E.
  pose proof (checkObject_same_file ob (it1, emit (EvMkdir (name it1)) w)) as Hc.
  pose proof (checkObject_frame ob (it1, emit (EvMkdir (name it1)) w)) as [Hop2 _].
  destruct (checkObject ob (it1, emit (EvMkdir (name it1)) w)) as [u [it2 w2]].
  cbn [fst snd] in *.
  assert (Hf2 : same_file it it2).
  { destruct Hc as (A & B & C). repeat split; [rewrite A|rewrite B|rewrite C]; reflexivity. }
  destruct Hf2 as (Hc2 & Hn2 & Hfd2).
  assert (Hbp : backing_path it2 = toOSPath (c it) (name it)).
  { unfold backing_path. rewrite Hfd2, Hfd0, Hc2, Hn2. reflexivity. }
  pose proof (truncateToCurrentSize_frame (it2, w2)) as [Hop3 _].
  pose proof (truncateToCurrentSize_file (it2, w2)) as Ht. cbn [fst snd] in Ht.
  rewrite Hbp, Hc2, Hn2 in Ht.
  destruct (truncateToCurrentSize (it2, w2)) as [err [it3 w3]] eqn:Ets. cbn [fst snd] in *.
  destruct err as [e|]; [subst res; discriminate|].
  destruct (Ht eq_refl Hp) as [(Hc3 & Hn3 & Hfd3) Hfile]. clear Ht.
  rewrite !bind_run in E. cbn [item fst snd] in E.
  assert (Hop : opens it3 = 1).
  { rewrite Hop3, Hop2. exact H1. }
  rewrite Hop in E. cbn [Z.eqb Pos.eqb negb] in E.
  assert (Hfd3' : fd it3 = None) by congruence.
  rewrite Hfd3' in E. cbn [isNil negb] in E.
  rewrite !bind_run in E. cbn [sys fst snd] in E. rewrite Hp1 in E.
  set (p := toOSPath (c it) (name it)) in *.
  destruct (file_OpenFile p false w3) as [[f|e] w4] eqn:E3; [|subst res; discriminate].
  assert (Hex : exists b, files w3 !! p = Some b /\ w4 = w3).
  { revert E3. unfold file_OpenFile. destruct (files w3 !! p) as [b|]; [|discriminate].
    destruct (failed w3 FileOpenFile p); [discriminate|]. intros [= _ <-]. eauto. }
  destruct Hex as (b3 & Hb3 & ->).
  assert (Hlen : lenZ b3 = Size it3).
  { destruct Hfile as [[Hneg Hst]|(b & Hb & Hl)]; [|congruence].
    injection Hst as -> ->.
    exfalso. revert Hneg. unfold _getSize. go. rewrite Hfd3'.
    unfold os_Stat, failed. rewrite Hc2, Hn2. fold p. rewrite Hb3.
    destruct (fault _ OsStat p); cbn; unfold lenZ; lia. }
  apply file_OpenFile_handle in E3. subst f.
  cbn [fst snd] in E. rewrite !bind_run in E. cbn [sys update fst snd] in E.
  assert (Hsp : files (snd (file_SetSparse p w3)) = files w3).
  { unfold file_SetSparse. destruct (failed w3 FileSetSparse p); reflexivity. }
  destruct (file_SetSparse p w3) as [e5 w5]. cbn [fst snd] in *.
  set (it6 := set_fd _ it3) in E.
  pose proof (_save_item (it6, w5)) as Hs.
  destruct (_save_world (it6, w5)) as (fsys & Hw7 & Hfs & _).
  destruct (_save (it6, w5)) as [e7 [it7 w7]]. cbn [fst snd] in *. subst it7 w7.
  assert (Hfin : files (set_files fsys w5) !! p = Some b3 /\ lenZ b3 = Size it6).
  { split; [|exact Hlen]. cbn. rewrite Hfs; [rewrite Hsp; exact Hb3|].
    cbn. rewrite Hc3, Hn3, Hc2, Hn2. exact Hp. }
  destruct e7 as [e|]; [subst res; discriminate|].
  rewrite !bind_run in E. cbn [sys fst snd] in E.
  unfold cache_put in E. cbn [fst snd] in E.
  destruct (registry (set_files fsys w5) !! name it3) as [[|k]|];
    cbn [fst snd] in E.
  - subst res. cbn. exists b3. exact Hfin.
  - destruct (negb (k =? 0)).
    + subst res. discriminate.
    + subst res. cbn. exists b3. exact Hfin.
  - subst res. cbn. exists b3. exact Hfin.
Qed.

Lemma Open_materialises_witness :
  exists b,
    files (snd (snd (Open (Some Scenario.remote2) Scenario.stale))) !! "vfs/a.txt" = Some b
    /\ lenZ b = Size (fst (snd (Open (Some Scenario.remote2) Scenario.stale))).
Proof.
  apply (Open_materialises (Some Scenario.remote2) Scenario.stale).
  - vm_compute. reflexivity.
  - vm_compute. reflexivity.
  - vm_compute. discriminate.
Defined.

(** *** Close: the callback and the size *)

(** The caller's storeFn runs exactly when Close returns no error: it
    runs last, on the item's remote object as Close leaves it, and a
    failing Close is the same with or without it. *)
Theorem Close_storeFn (f : StoreFn) (st : St) :
  Close (Some f) st
  = match fst (Close None st) with
    | None =>
        (None, (fst (snd (Close None st)),
                f (o (fst (snd (Close None st)))) (snd (snd (Close None st)))))
    | Some e => Close None st
    end.
Proof.
  unfold Close. rewrite !bind_run.
  destruct (Close_locked st) as [[e dl] [it1 w1]]. cbn [fst snd].
  destruct dl as [d|].
  - rewrite !bind_run. cbn [item sys fst snd ret downloader_close].
    destruct (failed w1 DlClose (name it1)), e; reflexivity.
  - cbn [ret fst snd]. destruct e; reflexivity.
Qed.

Lemma _ensure_Size offset size st :
  Size (fst (snd (_ensure offset size st))) = Size (fst st).
Proof.
  destruct st as [it w]. unfold _ensure.
  rewrite bind_run. cbn [item fst snd].
  destruct (ranges.Present _ _); [reflexivity|].
  rewrite bind_run.
  assert (H1 : Size (fst (snd (_newDownloader (it, w)))) = Size it).
  { unfold _newDownloader, newDownloader, downloader_close. go.
    destruct (o it); [|reflexivity].
    destruct (downloader it); simpl; destruct (failed _ DlNew _); reflexivity. }
  destruct (_newDownloader (it, w)) as [e [it1 w1]]. cbn [fst snd] in *.
  destruct e; [exact H1|].
  rewrite bind_run. cbn [item fst snd].
  destruct (downloader it1) as [d|] eqn:Hd; [|exact H1].
  assert (He : forall it' w' r, Size (fst (snd (downloader_ensure r (it', w')))) = Size it').
  { intros it' w' r. unfold downloader_ensure.
    rewrite !bind_run. cbn [item world sys fst snd].
    destruct (failed _ DlEnsure _); [reflexivity|].
    rewrite bind_run. cbn [ret fst snd]. rewrite _written_item. reflexivity. }
  destruct (negb (downloader_running d)).
  - rewrite bind_run.
    assert (H2 : Size (fst (snd (downloader_start offset (it1, w1)))) = Size it1).
    { unfold downloader_start. go. rewrite Hd.
      destruct (failed w1 DlStart _); reflexivity. }
    destruct (downloader_start offset (it1, w1)) as [e [it2 w2]]. cbn [fst snd] in *.
    destruct e; cbn [ret fst snd]; [congruence|]. rewrite He. congruence.
  - rewrite He. exact H1.
Qed.

Lemma _store_Size st : Size (fst (snd (_store st))) = Size (fst st).
Proof.
  unfold _store. rewrite bind_run.
  pose proof (_ensure_Size 0 maxInt64 st) as H1.
  destruct (_ensure 0 maxInt64 st) as [e [it1 w1]]. cbn [fst snd] in *.
  destruct e; [exact H1|]. go.
  destruct (fcache_NewObject _ _ _); [|exact H1].
  unfold copyObj. cbn. destruct (failed w1 CopyObj (name it1)); exact H1.
Qed.

(** A last Close that returns no error leaves the item with the size of
    its backing file, whenever the stat of the open handle succeeds. *)
Theorem Close_refreshes_size (storeFn : option StoreFn) (st : St) (f : os_File)
    (b : list byte) :
  fst (Close storeFn st) = None -> sub64 (opens (fst st)) 1 = 0 ->
  fd (fst st) = Some f -> files (snd st) !! f = Some b ->
  fault (snd st) FdStat f = None ->
  Size (fst (snd (Close storeFn st))) = lenZ b.
Proof.
  intros Hok H0 Hfd Hb Hflt.
  destruct (Close_item storeFn st) as [Hit Herr]. specialize (Herr Hok).
  rewrite Hit. clear Hit Hok. revert Herr.
  destruct st as [it w]. cbn [fst snd] in *.
  remember (Close_locked (it, w)) as res eqn:E. unfold Close_locked in E.
  rewrite ?bind_run in E. cbn [time_Now update item fst snd] in E.
  set (it1 := set_opens _ _) in E.
  assert (Ho1 : opens it1 = 0) by exact H0.
  rewrite Ho1 in E. cbn [Z.ltb Z.gtb Z.compare] in E.
  assert (Hgs : _getSize (it1, w) = ((lenZ b, None), (it1, w))).
  { unfold _getSize. go. rewrite Hfd. unfold fd_Stat, failed. rewrite Hb, Hflt. reflexivity. }
  rewrite ?bind_run, Hgs in E. cbn [fst snd isNil update] in E.
  set (it2 := set_Size (lenZ b) it1) in E.
  rewrite ?bind_run in E.
  pose proof (_save_item (it2, w)) as Hsave.
  destruct (_save (it2, w)) as [e [it3 w3]]. cbn [fst snd] in *. subst it3.
  destruct e as [e|]; [subst res; discriminate|].
  rewrite ?bind_run in E. cbn [item update fst snd] in E.
  assert (Hfd2 : fd it2 = Some f) by exact Hfd.
  rewrite Hfd2 in E.
  rewrite ?bind_run in E. cbn [item world update fst snd] in E.
  rewrite _present_state in E.
  set (it4 := set_fd None (set_downloader None it2)) in E.
  set (pres := fst (_present (it4, w3))) in E.
  set (st5 := snd ((if negb (changed it4) && pres
                    then match o it4 with
                         | Some obj => _setModTime (fs.ModTime obj)
                         | None => ret tt
                         end
                    else ret tt) (it4, w3))) in E.
  assert (Hst5 : exists w5, st5 = (it4, w5)).
  { subst st5. destruct (negb (changed it4) && pres); [|eexists; reflexivity].
    destruct (o it4) as [obj|]; [|eexists; reflexivity].
    pose proof (_setModTime_item (fs.ModTime obj) (it4, w3)) as H.
    destruct (_setModTime _ _) as [u [i5 w5]]. cbn in H. subst. eexists; reflexivity. }
  destruct Hst5 as [w5 Hst5]. rewrite Hst5 in E. clear st5 Hst5.
  destruct (changed it4).
  - rewrite bind_run in E.
    pose proof (_store_Size (it4, w5)) as HS.
    destruct (_store (it4, w5)) as [e [it6 w6]]. cbn [fst snd] in *.
    destruct e as [e|]; [subst res; discriminate|].
    rewrite ?bind_run in E. cbn [update fst snd ret] in E.
    subst res. cbn [fst snd]. intros _. exact HS.
  - subst res. cbn [fst snd ret]. intros _. reflexivity.
Qed.

Lemma Close_refreshes_size_witness :
  Size (fst (snd (Close None
                    (Scenario.item_of 1 None (Some "vfs/a.txt") 0 [] "",
                     Scenario.world_of {[ "vfs/a.txt" := Scenario.zeros 4 ]})))) = 4.
Proof.
  apply (Close_refreshes_size None
           (Scenario.item_of 1 None (Some "vfs/a.txt") 0 [] "",
            Scenario.world_of {[ "vfs/a.txt" := Scenario.zeros 4 ]})
           "vfs/a.txt" (Scenario.zeros 4)); vm_compute; reflexivity.
Defined.
